(** * Heterogenous/stacking_HR.py: harmonisation and evaluation pipeline

    A shallow embedding of the script [src/Heterogenous/stacking_HR.py].
    The script is a straight line of pandas / scikit-learn calls; each call
    the properties below depend on is given here as an executable function
    over an explicit data model:

    - a column of a data frame is a typed sequence of cells ([int64],
      [float64] with NaN, or [object] holding text and NaN);
    - floating point values are idealised as exact rationals ([Q]), NaN is
      [None];
    - a failing library call raises, modelled by the [result] type;
    - estimator objects live in a store addressed by references, because the
      script shares them between the stacking ensemble, the grid search and
      the diversity analysis. *)

From Stdlib Require Import ZArith QArith Qround Lqa Lia Ascii.
From stdpp Require Import base option list strings gmap sorting.

Local Open Scope Z_scope.
Local Open Scope string_scope.
Local Open Scope list_scope.

(** ** Exceptions *)

Inductive error : Type :=
| KeyError
| ValueError
| IndexError
| InvalidIndexError
| TypeError
| NotFittedError.

Inductive result (A : Type) : Type :=
| Ok (a : A)
| Raise (e : error).
Arguments Ok {A} a.
Arguments Raise {A} e.

#[global] Instance result_ret : MRet result := fun _ a => Ok a.
#[global] Instance result_bind : MBind result := fun _ _ k m =>
  match m with
  | Ok a => k a
  | Raise e => Raise e
  end.

(** A lookup that raises when it finds nothing. *)
Definition or_raise {A} (e : error) (o : option A) : result A :=
  match o with
  | Some a => Ok a
  | None => Raise e
  end.

(** ** Cells and columns *)

(** A number as [pd.to_numeric] produces it from text: an integer literal or
    a float. *)
Inductive number : Type :=
| NumInt (z : Z)
| NumFloat (q : Q).

(** A column as [pd.read_csv] delivers it. *)
Inductive RawSeries : Type :=
| RawInt (xs : list Z)
| RawFloat (xs : list (option Q))
| RawObject (xs : list (option string)).

(** A numeric column, the result of [pd.to_numeric]. *)
Inductive Series : Type :=
| Int64 (xs : list Z)
| Float64 (xs : list (option Q)).

Inductive dtype : Type := int64 | float64.

#[global] Instance dtype_eq_dec : EqDecision dtype.
Proof. solve_decision. Defined.


(** A data frame: its columns in order, each with its label. *)
Abbreviation DataFrame A := (list (string * A)).

Definition columns {A} (df : DataFrame A) : list string := df.*1.

Definition raw_len (s : RawSeries) : nat :=
  match s with
  | RawInt xs => length xs
  | RawFloat xs => length xs
  | RawObject xs => length xs
  end.

Definition series_len (s : Series) : nat :=
  match s with
  | Int64 xs => length xs
  | Float64 xs => length xs
  end.

Definition nrows (df : DataFrame Series) : nat :=
  match df with
  | [] => 0%nat
  | (_, s) :: _ => series_len s
  end.

(** The cells of a numeric column as floats. *)
Definition to_floats (s : Series) : list (option Q) :=
  match s with
  | Int64 xs => (fun z => Some (inject_Z z)) <$> xs
  | Float64 xs => xs
  end.

(** ** Column statistics over exact rationals *)

Definition Qsum (xs : list Q) : Q := foldr Qplus 0%Q xs.

Definition Qmean (xs : list Q) : option Q :=
  match xs with
  | [] => None
  | _ => Some (Qsum xs / inject_Z (Z.of_nat (length xs)))%Q
  end.

(** ** Cleaning (lines 26-28 and 31-33) *)

(** [df.replace(['?', '-9'], np.nan, inplace=True)].  The tokens are text;
    they match text cells only, so numeric columns are left as they are. *)
Definition sentinels : list string := ["?"; "-9"].

Definition replace_cell (c : option string) : option string :=
  match c with
  | Some s => if bool_decide (s ∈ sentinels) then None else Some s
  | None => None
  end.

Definition replace (s : RawSeries) : RawSeries :=
  match s with
  | RawObject xs => RawObject (replace_cell <$> xs)
  | _ => s
  end.

Definition as_int (c : option number) : option Z :=
  match c with
  | Some (NumInt z) => Some z
  | _ => None
  end.

Definition as_float (c : option number) : option Q :=
  match c with
  | Some (NumInt z) => Some (inject_Z z)
  | Some (NumFloat q) => Some q
  | None => None
  end.

Section Cleaning.
(** The text-to-number parser inside [pd.to_numeric]; [None] is a cell it
    cannot parse. *)
Variable parse : string -> option number.

Definition coerce_cell (c : option string) : option number := c ≫= parse.

(** [pd.to_numeric(col, errors='coerce')]: numeric columns pass through; a
    text column is parsed cell by cell, a failure becoming NaN; the result
    is [int64] when every cell is an integer and [float64] otherwise. *)
Definition to_numeric (s : RawSeries) : Series :=
  match s with
  | RawInt xs => Int64 xs
  | RawFloat xs => Float64 xs
  | RawObject xs =>
      let ps := coerce_cell <$> xs in
      match mapM as_int ps with
      | Some zs => Int64 zs
      | None => Float64 (as_float <$> ps)
      end
  end.

(** The non-missing values of a column. *)
Definition present (s : Series) : list Q := omap id (to_floats s).

(** One entry of [df.mean()]: the mean of the non-missing values, NaN when
    there is none. *)
Definition mean (s : Series) : option Q := Qmean (present s).

Definition fill_cell (m : option Q) (c : option Q) : option Q :=
  match c with
  | Some v => Some v
  | None => m
  end.

(** [col.fillna(m)]. An [int64] column has no missing cell. *)
Definition fillna (m : option Q) (s : Series) : Series :=
  match s with
  | Int64 xs => Int64 xs
  | Float64 xs => Float64 (fill_cell m <$> xs)
  end.

Definition clean_series (s : RawSeries) : Series :=
  let t := to_numeric (replace s) in
  fillna (mean t) t.

(** The three cleaning statements applied to one data set. *)
Definition clean (df : DataFrame RawSeries) : DataFrame Series :=
  prod_map id clean_series <$> df.
End Cleaning.

(** ** Renaming (lines 36-57) *)

Definition feature_mapping : gmap string string :=
  list_to_map
    [ ("age", "Age");
      ("gender", "Sex");
      ("chestpain", "cp");
      ("restingBP", "trestbps");
      ("serumcholestrol", "chol");
      ("fastingbloodsugar", "fbs");
      ("restingrelectro", "restecg");
      ("maxheartrate", "thalach");
      ("exerciseangia", "exang");
      ("oldpeak", "oldpeak");
      ("slope", "slope");
      ("noofmajorvessels", "ca");
      ("target", "num") ].

(** [if 'patientid' in df.columns: df.drop(columns=['patientid'])]. *)
Definition drop_columns {A} (name : string) (df : DataFrame A) : DataFrame A :=
  filter (fun c => c.1 ≠ name) df.

(** [df.rename(columns=feature_mapping)]: labels outside the table stay. *)
Definition rename_label (m : gmap string string) (name : string) : string :=
  default name (m !! name).

Definition rename {A} (m : gmap string string) (df : DataFrame A) : DataFrame A :=
  prod_map (rename_label m) id <$> df.

(** ** Label binarisation (lines 60-61) *)

Definition Qgt_bool (x y : Q) : bool :=
  match (x ?= y)%Q with
  | Gt => true
  | _ => false
  end.

(** [lambda x: 1 if x > 0 else 0] on an integer cell and on a float cell;
    every comparison with NaN is false. *)
Definition binarize_int (x : Z) : Z := if (x >? 0) then 1 else 0.

Definition binarize_float (x : option Q) : Z :=
  match x with
  | Some v => if Qgt_bool v 0 then 1 else 0
  | None => 0
  end.

Definition apply_binarize (s : Series) : list Z :=
  match s with
  | Int64 xs => binarize_int <$> xs
  | Float64 xs => binarize_float <$> xs
  end.

(** [df[name]] for reading: the columns carrying the label. *)
Definition select {A} (name : string) (df : DataFrame A) : list A :=
  (filter (fun c => c.1 = name) df).*2.

(** [df['num'] = df['num'].apply(lambda x: 1 if x > 0 else 0)].  A missing
    label raises [KeyError]; a label carried by several columns selects a
    frame, whose [apply] hands whole columns to the lambda, and the truth
    value of a column raises [ValueError]. *)
Definition binarize_num (df : DataFrame Series) : result (DataFrame Series) :=
  match select "num" df with
  | [] => Raise KeyError
  | [_] =>
      Ok ((fun c : string * Series =>
             if bool_decide (c.1 = "num") then (c.1, Int64 (apply_binarize c.2)) else c)
            <$> df)
  | _ => Raise ValueError
  end.

(** ** Concatenation (line 64) *)

(** Row-wise append of two columns: two [int64] columns stay [int64], any
    other pair is upcast to [float64]. *)
Definition append_series (a b : Series) : Series :=
  match a, b with
  | Int64 xs, Int64 ys => Int64 (xs ++ ys)
  | _, _ => Float64 (to_floats a ++ to_floats b)
  end.

(** The column of [df] labelled [name], or a column of NaN of the frame's
    height when the frame has no such column. *)
Definition column_or_nan (name : string) (df : DataFrame Series) : Series :=
  match select name df with
  | s :: _ => s
  | [] => Float64 (replicate (nrows df) None)
  end.

(** The outer join of two frames in which some frame has a column: frames
    with the same labels in the same order are appended column by column;
    otherwise, when labels are unique within each frame, the result has the
    labels of [a] followed by the new labels of [b], and a frame lacking a
    label contributes NaN; otherwise reindexing raises. *)
Definition outer_join (a b : DataFrame Series) : result (DataFrame Series) :=
  if bool_decide (columns a = columns b) then
    Ok (zip_with (fun ca cb => (ca.1, append_series ca.2 cb.2)) a b)
  else if bool_decide (NoDup (columns a) ∧ NoDup (columns b)) then
    Ok ((fun name => (name, append_series (column_or_nan name a) (column_or_nan name b)))
          <$> (columns a ++ filter (fun name : string => name ∉ columns a) (columns b))%list)
  else Raise InvalidIndexError.

(** [pd.concat([a, b], ignore_index=True)], with the default outer join.  A
    frame without rows and without columns is left out before the others
    are joined, so that it does not change their dtypes. *)
Definition concat (a b : DataFrame Series) : result (DataFrame Series) :=
  match a, b with
  | [], _ => Ok b
  | _, [] => Ok a
  | _, _ => outer_join a b
  end.

(** ** Row selection *)

(** Positional indexing [xs[idx]]; an index out of range raises. *)
Definition take_list {A} (idx : list nat) (xs : list A) : option (list A) :=
  mapM (fun i => xs !! i) idx.

Definition take_series (idx : list nat) (s : Series) : option Series :=
  match s with
  | Int64 xs => Int64 <$> take_list idx xs
  | Float64 xs => Float64 <$> take_list idx xs
  end.

Definition take_frame (idx : list nat) (df : DataFrame Series) : option (DataFrame Series) :=
  mapM (fun c : string * Series => pair c.1 <$> take_series idx c.2) df.

(** ** Random state *)

(** The legacy NumPy generator as the script uses it: a generator is made
    from an integer seed, and drawing a permutation of [0..n) advances it. *)
Class RandomState (G : Type) : Type := {
  seed : Z -> G;
  permutation : G -> nat -> list nat * G
}.

(** What every generator guarantees. *)
Class RandomStateLaws (G : Type) `{RandomState G} : Prop := {
  permutation_perm : forall g n, (permutation g n).1 ≡ₚ seq 0 n
}.

(** A computation that may raise and that threads the process-wide
    generator (the one used when no [random_state] is given). *)
Definition Run (G A : Type) : Type := G -> result (A * G).

#[global] Instance Run_ret {G} : MRet (Run G) := fun _ a g => Ok (a, g).
#[global] Instance Run_bind {G} : MBind (Run G) := fun _ _ k m g =>
  match m g with
  | Ok (a, g') => k a g'
  | Raise e => Raise e
  end.

Definition lift {G A} (r : result A) : Run G A := fun g =>
  match r with
  | Ok a => Ok (a, g)
  | Raise e => Raise e
  end.

(** ** Observing a run *)

(** The outcome of a run, without the generator it leaves behind. *)
Definition outcome {G A} (r : result (A * G)) : result A :=
  match r with
  | Ok (a, _) => Ok a
  | Raise e => Raise e
  end.

(** The store a run leaves behind; the empty store when it raises. *)
Definition store_after {A S} (r : result (A * list S)) : list S :=
  match r with
  | Ok (_, h) => h
  | Raise _ => []
  end.

Definition result_to_option {A} (r : result A) : option A :=
  match r with
  | Ok a => Some a
  | Raise _ => None
  end.

Section Sampling.
Context {G : Type} `{RandomState G}.

(** [check_random_state(random_state).permutation(n)]: an integer makes a
    fresh generator and leaves the process-wide one alone; [None] draws
    from the process-wide one. *)
Definition draw_permutation (random_state : option Z) (n : nat) : Run G (list nat) :=
  fun g =>
    match random_state with
    | Some s => Ok ((permutation (seed s) n).1, g)
    | None => Ok (permutation g n)
    end.

(** Python's [round]: to the nearest integer, ties to the even one. *)
Definition round_half_even (q : Q) : Z :=
  let f := Qfloor q in
  match (q - inject_Z f ?= 1 # 2)%Q with
  | Lt => f
  | Gt => f + 1
  | Eq => if Z.even f then f else f + 1
  end.

(** [df.sample(frac=frac, random_state=random_state)]: a negative fraction
    and, without replacement, a fraction above 1 are rejected; otherwise
    [round(frac * N)] rows are drawn without replacement as the head of a
    permutation. *)
Definition sample (frac : Q) (random_state : option Z) (df : DataFrame Series)
  : Run G (DataFrame Series) :=
  if Qle_bool 0 frac && Qle_bool frac 1 then
    let N := nrows df in
    let n := Z.to_nat (round_half_even (frac * inject_Z (Z.of_nat N))) in
    locs ← draw_permutation random_state N;
    lift (or_raise IndexError (take_frame (take n locs) df))
  else lift (Raise ValueError).

(** The index sets of [train_test_split(..., test_size, random_state)]:
    [ceil(test_size * n)] test rows from the head of a permutation, the
    rest for training; an empty training set raises. *)
Definition split_indices (n : nat) (test_size : Q) (random_state : option Z)
  : Run G (list nat * list nat) :=
  let n_test := Z.to_nat (Qceiling (test_size * inject_Z (Z.of_nat n))) in
  let n_train := (n - n_test)%nat in
  if bool_decide (n_train = 0%nat) then lift (Raise ValueError)
  else
    p ← draw_permutation random_state n;
    mret (take n_train (drop n_test p), take n_test p).
End Sampling.

(** ** Feature scaling (lines 74-75) *)

(** A feature matrix, column by column, as [float64]. *)
Abbreviation Matrix := (list (list (option Q))).

Definition matrix_nrows (X : Matrix) : nat :=
  match X with
  | [] => 0%nat
  | col :: _ => length col
  end.

Definition take_matrix (idx : list nat) (X : Matrix) : option Matrix :=
  mapM (take_list idx) X.

(** The statistics [StandardScaler] keeps for one column. *)
Record ColumnStats : Type := {
  mean_ : option Q;
  var_ : option Q;
  scale_ : option Q
}.

(** Population variance: the mean squared deviation from the mean. *)
Definition Qvar (xs : list Q) : option Q :=
  m ← Qmean xs; Qmean ((fun x => (x - m) * (x - m))%Q <$> xs).

(** The machine epsilon of [float64]. *)
Definition float_eps : Q := 1 # 4503599627370496.

(** [_is_constant_feature(var, mean, n_samples)]: a variance that is not
    above the rounding error of its own computation marks a constant
    feature. *)
Definition is_constant_feature (var mean : Q) (n_samples : nat) : bool :=
  let n := inject_Z (Z.of_nat n_samples) in
  Qle_bool var (n * float_eps * var
                + (n * mean * float_eps) * (n * mean * float_eps))%Q.

(** [_handle_zeros_in_scale(scale, constant_mask)]: the divisor of a
    constant feature is 1. *)
Definition handle_zeros_in_scale (scale : Q) (constant_mask : bool) : Q :=
  if constant_mask then 1%Q else scale.

Section Scaler.
(** The square root of the numeric library. *)
Variable sqrt : Q -> Q.

(** Missing cells are disregarded when fitting; the divisor is the standard
    deviation, and 1 for a constant feature. *)
Definition fit_column (col : list (option Q)) : ColumnStats :=
  let xs := omap id col in
  {| mean_ := Qmean xs;
     var_ := Qvar xs;
     scale_ := m ← Qmean xs; v ← Qvar xs;
               Some (handle_zeros_in_scale (sqrt v)
                       (is_constant_feature v m (length xs))) |}.

(** [(x - mean) / scale]; a missing cell stays missing. *)
Definition transform_cell (st : ColumnStats) (c : option Q) : option Q :=
  x ← c; m ← mean_ st; s ← scale_ st; Some ((x - m) / s)%Q.

Definition transform (stats : list ColumnStats) (X : Matrix) : Matrix :=
  zip_with (fun st col => transform_cell st <$> col) stats X.

(** [scaler.fit(X)]: input validation rejects a matrix without rows or
    without columns. *)
Definition fit (X : Matrix) : result (list ColumnStats) :=
  if bool_decide (length X = 0%nat ∨ matrix_nrows X = 0%nat) then Raise ValueError
  else Ok (fit_column <$> X).

(** [scaler.fit_transform(X)]: the fitted statistics and the scaled
    matrix. *)
Definition fit_transform (X : Matrix) : result (list ColumnStats * Matrix) :=
  stats ← fit X; mret (stats, transform stats X).
End Scaler.

(** ** The pipeline up to the train/test split (lines 22-78) *)

(** What the script holds after line 78. *)
Record Prepared : Type := {
  scaler : list ColumnStats;
  X_train : Matrix;
  X_test : Matrix;
  y_train : Series;
  y_test : Series
}.

(** [df[name]] for a label carried by exactly one column. *)
Definition getitem (name : string) (df : DataFrame Series) : result Series :=
  match select name df with
  | [s] => Ok s
  | [] => Raise KeyError
  | _ => Raise ValueError
  end.

(** [df.drop(columns=[name])]: a missing label raises. *)
Definition drop_checked (name : string) (df : DataFrame Series) : result (DataFrame Series) :=
  if bool_decide (name ∈ columns df) then Ok (drop_columns name df) else Raise KeyError.

Section Pipeline.
Variable parse : string -> option number.
Variable sqrt : Q -> Q.
Context {G : Type} `{RandomState G}.

(** Lines 26-28. *)
Definition harmonize_uci (uci_df : DataFrame RawSeries) : DataFrame Series :=
  clean parse uci_df.

(** Lines 31-33 and 53-57. *)
Definition harmonize_india (india_df : DataFrame RawSeries) : DataFrame Series :=
  let india_df := clean parse india_df in
  let india_df :=
    if bool_decide ("patientid" ∈ columns india_df)
    then drop_columns "patientid" india_df else india_df in
  rename feature_mapping india_df.

(** Lines 60-64. *)
Definition combine (uci_df india_df : DataFrame Series) : result (DataFrame Series) :=
  uci_df ← binarize_num uci_df;
  india_df ← binarize_num india_df;
  concat uci_df india_df.

(** Line 78. The arrays must have the same number of rows. *)
Definition train_test_split (X : Matrix) (y : Series) (test_size : Q)
    (random_state : option Z) : Run G (Matrix * Matrix * Series * Series) :=
  if bool_decide (matrix_nrows X = series_len y) then
    '(train, test) ← split_indices (matrix_nrows X) test_size random_state;
    X_train ← lift (or_raise IndexError (take_matrix train X));
    X_test ← lift (or_raise IndexError (take_matrix test X));
    y_train ← lift (or_raise IndexError (take_series train y));
    y_test ← lift (or_raise IndexError (take_series test y));
    mret (X_train, X_test, y_train, y_test)
  else lift (Raise ValueError).

(** Lines 74-78: scale the whole feature matrix, then split it. *)
Definition scale_split (X : Matrix) (y : Series) : Run G Prepared :=
  '(stats, X_scaled) ← lift (fit_transform sqrt X);
  '(X_train, X_test, y_train, y_test) ← train_test_split X_scaled y (2 # 10) (Some 42);
  mret {| scaler := stats; X_train := X_train; X_test := X_test;
          y_train := y_train; y_test := y_test |}.

(** Lines 67-78 on the combined data. *)
Definition sample_scale_split (combined_data : DataFrame Series) : Run G Prepared :=
  data_sampled ← sample (1 # 10) (Some 42) combined_data;
  X ← lift (drop_checked "num" data_sampled);
  y ← lift (getitem "num" data_sampled);
  scale_split (to_floats <$> X.*2) y.

(** Lines 22-78, from the two loaded tables. *)
Definition prepare (uci_df india_df : DataFrame RawSeries) : Run G Prepared :=
  combined_data ← lift (combine (harmonize_uci uci_df) (harmonize_india india_df));
  sample_scale_split combined_data.
End Pipeline.

(** ** Diversity (lines 160-163) *)

(** The Hamming distance of two prediction vectors: the fraction of
    positions at which they differ. *)
Definition hamming (u v : list Z) : Q :=
  (inject_Z (Z.of_nat (length (filter (fun p => p.1 ≠ p.2) (zip u v))))
   / inject_Z (Z.of_nat (length u)))%Q.

(** [np.vstack((knn_pred, svm_pred, dt_pred)).T]: one row per test instance,
    one entry per learner; vectors of different lengths cannot be stacked. *)
Definition pred_matrix (knn_pred svm_pred dt_pred : list Z) : result (list (list Z)) :=
  if bool_decide (length knn_pred = length svm_pred ∧ length svm_pred = length dt_pred)
  then Ok (zip_with (fun a bc => [a; bc.1; bc.2]) knn_pred (zip svm_pred dt_pred))
  else Raise ValueError.

(** [pairwise_distances(M, metric='hamming').mean()]: the distance of every
    row of [M] to every row of [M], averaged over all ordered pairs of rows;
    a matrix without rows is rejected. *)
Definition pairwise_distances_mean (M : list (list Z)) : result Q :=
  or_raise ValueError (Qmean (r1 ← M; r2 ← M; [hamming r1 r2])).

Definition disagreements (knn_pred svm_pred dt_pred : list Z) : result Q :=
  M ← pred_matrix knn_pred svm_pred dt_pred; pairwise_distances_mean M.

(** The mean pairwise disagreement between learners, as the specification
    words it: the Hamming distance of two learners' prediction vectors,
    averaged over the three pairs of learners. *)
Definition spec_learner_disagreement (knn_pred svm_pred dt_pred : list Z) : Q :=
  ((hamming knn_pred svm_pred + hamming knn_pred dt_pred + hamming svm_pred dt_pred)
   / 3)%Q.

(** ** The cleaning contract as the specification words it *)

(** A cell of a loaded column, whatever the column's type. *)
Inductive raw_cell : Type :=
| CInt (z : Z)
| CFloat (q : Q)
| CText (s : string)
| CNaN.

Definition raw_cells (s : RawSeries) : list raw_cell :=
  match s with
  | RawInt xs => CInt <$> xs
  | RawFloat xs => (fun c => match c with Some q => CFloat q | None => CNaN end) <$> xs
  | RawObject xs => (fun c => match c with Some t => CText t | None => CNaN end) <$> xs
  end.

Section CleaningSpecification.
Variable parse : string -> option number.

(** The value of a cell once sentinels are replaced and the column is
    coerced, as the specification words it: every occurrence of a sentinel
    token, "?" or "-9", is missing, whether the column was loaded as text or
    as numbers; an unparseable text is missing; any other cell has its
    numeric value. *)
Definition spec_coerced (c : raw_cell) : option Q :=
  match c with
  | CInt z => if bool_decide (z = -9) then None else Some (inject_Z z)
  | CFloat q => if Qeq_bool q (-9 # 1) then None else Some q
  | CText t => if bool_decide (t = "?" ∨ t = "-9") then None else as_float (parse t)
  | CNaN => None
  end.

(** The cleaned column as the specification words it: each cell still
    missing takes the mean of the column's non-missing values. *)
Definition spec_clean (cells : list raw_cell) : list (option Q) :=
  let vs := spec_coerced <$> cells in
  let m := Qmean (omap id vs) in
  (fun v => match v with Some x => Some x | None => m end) <$> vs.
End CleaningSpecification.


(** ** Estimators (lines 81-112 and 152-157) *)

(** A hyperparameter value. *)
Inductive value : Type :=
| VInt (z : Z)
| VFloat (q : Q)
| VStr (s : string)
| VBool (b : bool)
| VNone.

Inductive family : Type :=
| KNeighborsClassifier
| SVC
| DecisionTreeClassifier
| LogisticRegression.

(** [key.partition('__')]: the text before the first double underscore and,
    when there is one, the text after it. *)
Fixpoint partition_dunder (key : string) : string * option string :=
  match key with
  | String "_"%char (String "_"%char rest) => (EmptyString, Some rest)
  | String a rest =>
      let '(name, sub) := partition_dunder rest in (String a name, sub)
  | EmptyString => (EmptyString, None)
  end.

(** [ParameterGrid(param_grid)]: every combination of the listed values, the
    keys taken in sorted order, the first key varying slowest. *)
Definition key_le (a b : string * list value) : Prop := String.leb a.1 b.1 = true.

#[global] Instance key_le_dec : RelDecision key_le.
Proof. intros a b. unfold key_le. apply _. Defined.

Definition ParameterGrid (param_grid : list (string * list value))
  : list (list (string * value)) :=
  foldr (fun kv acc => v ← kv.2; rest ← acc; [(kv.1, v) :: rest]) [[]]
        (merge_sort key_le param_grid).

(** The index of the first greatest score. *)
Fixpoint argmax_from (best_i : nat) (best : Q) (i : nat) (scores : list Q) : nat :=
  match scores with
  | [] => best_i
  | x :: rest =>
      if Qgt_bool x best then argmax_from i x (S i) rest
      else argmax_from best_i best (S i) rest
  end.

Definition argmax (scores : list Q) : nat :=
  match scores with
  | [] => 0%nat
  | x :: rest => argmax_from 0 x 1 rest
  end.

Module Estimators.
Section Model.
(** The data a model is fitted on, the rows it predicts for, and a fitted
    model; fitting and predicting are the library's. *)
Context {Data Features Model : Type}.
Variable fit_model : family -> gmap string value -> Data -> Model.
Variable predict_model : Model -> Features -> list Z.
(** The out-of-fold predictions of the base learners, as the training data of
    the final estimator. *)
Variable meta_data : list (family * gmap string value) -> Z -> Data -> Data.
(** The training and the validation part of fold [k] of [cv] folds. *)
Variable train_fold test_fold : Z -> nat -> Data -> Data.
(** The area under the ROC curve of a fitted ensemble (its fitted base
    learners and its fitted final estimator) on validation data. *)
Variable roc_auc : list Model -> Model -> Data -> Q.

(** An estimator object.  An ensemble and a grid search refer to the
    estimators they were given; they do not hold copies. *)
Inductive object : Type :=
| Estimator (cls : family) (params : gmap string value) (fitted : option Model)
| StackingClassifier (estimators : list (string * nat)) (final_estimator : nat)
    (cv : Z) (fitted : option (list (string * nat) * nat))
| GridSearchCV (estimator : nat) (param_grid : list (string * list value)) (cv : Z)
    (best : option (nat * list (string * value) * Q)).

(** The store of objects; a reference is a position in it. *)
Definition alloc (o : object) : Run (list object) nat :=
  fun h => Ok (length h, h ++ [o]).

Definition load (l : nat) : Run (list object) object :=
  fun h => match h !! l with
           | Some o => Ok (o, h)
           | None => Raise TypeError
           end.

Definition store (l : nat) (o : object) : Run (list object) unit :=
  fun h => Ok ((), <[l := o]> h).

(** [sklearn.base.clone] of a plain estimator: a new, unfitted object with
    the same parameters. *)
Definition clone_leaf (l : nat) : Run (list object) nat :=
  o ← load l;
  match o with
  | Estimator cls params _ => alloc (Estimator cls params None)
  | _ => lift (Raise TypeError)
  end.

(** [sklearn.base.clone]: parameters that are estimators are cloned too.
    The script nests estimators one level deep. *)
Definition clone (l : nat) : Run (list object) nat :=
  o ← load l;
  match o with
  | Estimator cls params _ => alloc (Estimator cls params None)
  | StackingClassifier estimators final_estimator cv _ =>
      estimators' ← mapM (fun ne : string * nat =>
                            e' ← clone_leaf ne.2; mret (ne.1, e')) estimators;
      final_estimator' ← clone_leaf final_estimator;
      alloc (StackingClassifier estimators' final_estimator' cv None)
  | GridSearchCV _ _ _ _ => lift (Raise TypeError)
  end.

(** Setting a parameter of the object itself: the name must be one of its
    parameters.  Of an ensemble's own parameters only [cv] is modelled. *)
Definition set_own_param (l : nat) (name : string) (v : value) : Run (list object) unit :=
  o ← load l;
  match o with
  | Estimator cls params fitted =>
      if bool_decide (is_Some (params !! name))
      then store l (Estimator cls (<[name := v]> params) fitted)
      else lift (Raise ValueError)
  | StackingClassifier estimators final_estimator cv fitted =>
      match name, v with
      | "cv", VInt cv' => store l (StackingClassifier estimators final_estimator cv' fitted)
      | _, _ => lift (Raise ValueError)
      end
  | GridSearchCV _ _ _ _ => lift (Raise ValueError)
  end.

(** [est.set_params] for one key: a key [name__sub] is handed to the
    estimator the object holds under [name], which is modified in place. *)
Definition set_param (l : nat) (key : string) (v : value) : Run (list object) unit :=
  match partition_dunder key with
  | (name, None) => set_own_param l name v
  | (name, Some sub) =>
      o ← load l;
      match o with
      | StackingClassifier estimators final_estimator _ _ =>
          target ← lift (or_raise ValueError
                           (if bool_decide (name = "final_estimator")
                            then Some final_estimator
                            else (list_to_map estimators : gmap string nat) !! name));
          set_own_param target sub v
      | _ => lift (Raise ValueError)
      end
  end.

Definition set_params (l : nat) (params : list (string * value)) : Run (list object) unit :=
  _ ← mapM (fun kv : string * value => set_param l kv.1 kv.2) params; mret ().

(** [est.fit(X, y)] on a plain estimator: the object becomes fitted. *)
Definition fit_leaf (l : nat) (data : Data) : Run (list object) unit :=
  o ← load l;
  match o with
  | Estimator cls params _ =>
      store l (Estimator cls params (Some (fit_model cls params data)))
  | _ => lift (Raise TypeError)
  end.

Definition config (l : nat) : Run (list object) (family * gmap string value) :=
  o ← load l;
  match o with
  | Estimator cls params _ => mret (cls, params)
  | _ => lift (Raise TypeError)
  end.

(** [StackingClassifier.fit]: the estimators it was given are cloned and the
    clones are fitted; a clone of the final estimator is fitted on the
    out-of-fold predictions. *)
Definition fit_stacking (l : nat) (data : Data) : Run (list object) unit :=
  o ← load l;
  match o with
  | StackingClassifier estimators final_estimator cv _ =>
      estimators_ ← mapM (fun ne : string * nat =>
                            c ← clone_leaf ne.2; _ ← fit_leaf c data; mret (ne.1, c))
                         estimators;
      configs ← mapM (fun ne : string * nat => config ne.2) estimators;
      final_estimator_ ← clone_leaf final_estimator;
      _ ← fit_leaf final_estimator_ (meta_data configs cv data);
      store l (StackingClassifier estimators final_estimator cv
                 (Some (estimators_, final_estimator_)))
  | _ => lift (Raise TypeError)
  end.

Definition fit (l : nat) (data : Data) : Run (list object) unit :=
  o ← load l;
  match o with
  | Estimator _ _ _ => fit_leaf l data
  | StackingClassifier _ _ _ _ => fit_stacking l data
  | GridSearchCV _ _ _ _ => lift (Raise TypeError)
  end.

Definition fitted_model (l : nat) : Run (list object) Model :=
  o ← load l;
  match o with
  | Estimator _ _ (Some m) => mret m
  | _ => lift (Raise NotFittedError)
  end.

(** [est.predict(X)] on a plain estimator. *)
Definition predict (l : nat) (X : Features) : Run (list object) (list Z) :=
  m ← fitted_model l; mret (predict_model m X).

(** The score of a fitted ensemble on validation data. *)
Definition score (l : nat) (data : Data) : Run (list object) Q :=
  o ← load l;
  match o with
  | StackingClassifier _ _ _ (Some (estimators_, final_estimator_)) =>
      ms ← mapM (fun ne : string * nat => fitted_model ne.2) estimators_;
      m ← fitted_model final_estimator_;
      mret (roc_auc ms m data)
  | _ => lift (Raise NotFittedError)
  end.

(** One fit-and-score of the search: a clone of the base estimator takes the
    candidate's parameters, is fitted on the training part of the fold and
    scored on the validation part. *)
Definition fit_and_score (base : nat) (cv : Z) (data : Data)
    (candidate : list (string * value)) (k : nat) : Run (list object) Q :=
  e ← clone base;
  _ ← set_params e candidate;
  _ ← fit e (train_fold cv k data);
  score e (test_fold cv k data).

(** The mean validation score of every candidate. *)
Definition evaluate_candidates (base : nat) (cv : Z) (data : Data)
    (candidates : list (list (string * value))) : Run (list object) (list Q) :=
  mapM (fun candidate =>
          scores ← mapM (fit_and_score base cv data candidate) (seq 0 (Z.to_nat cv));
          mret (default 0%Q (Qmean scores)))
       candidates.

(** The refit of the search: a clone of the base estimator takes the best
    parameters and is fitted on all the training data; the search keeps it. *)
Definition refit (gs base : nat) (data : Data) (best : option (list (string * value)))
    (best_score : Q) : Run (list object) unit :=
  match best with
  | None => lift (Raise ValueError)
  | Some best_params =>
      best_estimator ← clone base;
      _ ← set_params best_estimator best_params;
      _ ← fit best_estimator data;
      o ← load gs;
      match o with
      | GridSearchCV estimator param_grid cv _ =>
          store gs (GridSearchCV estimator param_grid cv
                      (Some (best_estimator, best_params, best_score)))
      | _ => lift (Raise TypeError)
      end
  end.

(** [grid_search.fit(X_train, y_train)] (line 112). *)
Definition grid_search_fit (gs : nat) (data : Data) : Run (list object) unit :=
  o ← load gs;
  match o with
  | GridSearchCV estimator param_grid cv _ =>
      base ← clone estimator;
      let candidates := ParameterGrid param_grid in
      scores ← evaluate_candidates base cv data candidates;
      refit gs base data (candidates !! argmax scores)
            (default 0%Q (scores !! argmax scores))
  | _ => lift (Raise TypeError)
  end.

(** The parameters the constructors of lines 81-86 set or default. *)
Definition knn_params : gmap string value :=
  {[ "n_neighbors" := VInt 5 ]}.

Definition svm_params : gmap string value :=
  {[ "C" := VFloat 1; "kernel" := VStr "rbf";
     "probability" := VBool true; "random_state" := VInt 42 ]}.

Definition dt_params : gmap string value :=
  {[ "max_depth" := VNone; "random_state" := VInt 42 ]}.

Definition meta_params : gmap string value :=
  {[ "C" := VFloat 1 ]}.

(** Lines 100-106. *)
Definition param_grid : list (string * list value) :=
  [ ("knn__n_neighbors", [VInt 3; VInt 5]);
    ("svm__C", [VFloat (1 # 10); VInt 1]);
    ("svm__kernel", [VStr "linear"; VStr "rbf"]);
    ("dt__max_depth", [VNone; VInt 5]);
    ("final_estimator__C", [VFloat (1 # 10); VInt 1]) ].

(** The references the script holds. *)
Record Handles : Type := {
  knn : nat;
  svm : nat;
  dt : nat;
  meta_model : nat;
  stacking_model : nat;
  grid_search : nat
}.

(** Lines 81-109: the objects are constructed. *)
Definition construct : Run (list object) Handles :=
  knn ← alloc (Estimator KNeighborsClassifier knn_params None);
  svm ← alloc (Estimator SVC svm_params None);
  dt ← alloc (Estimator DecisionTreeClassifier dt_params None);
  meta_model ← alloc (Estimator LogisticRegression meta_params None);
  stacking_model ← alloc (StackingClassifier [("knn", knn); ("svm", svm); ("dt", dt)]
                                             meta_model 5 None);
  grid_search ← alloc (GridSearchCV stacking_model param_grid 5 None);
  mret {| knn := knn; svm := svm; dt := dt; meta_model := meta_model;
          stacking_model := stacking_model; grid_search := grid_search |}.

(** Lines 152-157: each base learner is fitted by itself and predicts the
    held-out rows. *)
Definition base_predictions (hd : Handles) (train : Data) (X_test : Features)
  : Run (list object) (list Z * list Z * list Z) :=
  _ ← fit (knn hd) train;
  knn_pred ← predict (knn hd) X_test;
  _ ← fit (svm hd) train;
  svm_pred ← predict (svm hd) X_test;
  _ ← fit (dt hd) train;
  dt_pred ← predict (dt hd) X_test;
  mret (knn_pred, svm_pred, dt_pred).

(** Lines 152-163: the predictions of the base learners are compared. *)
Definition diversity_analysis (hd : Handles) (train : Data) (X_test : Features)
  : Run (list object) Q :=
  preds ← base_predictions hd train X_test;
  lift (disagreements preds.1.1 preds.1.2 preds.2).

(** Lines 81-163 on the objects: construction, grid search, diversity. *)
Definition train_and_analyse (train : Data) (X_test : Features) : Run (list object) Q :=
  hd ← construct;
  _ ← grid_search_fit (grid_search hd) train;
  diversity_analysis hd train X_test.

(** The diversity score of the base learners with the parameters their
    constructors gave them. *)
Definition default_diversity (train : Data) (X_test : Features) : result Q :=
  disagreements
    (predict_model (fit_model KNeighborsClassifier knn_params train) X_test)
    (predict_model (fit_model SVC svm_params train) X_test)
    (predict_model (fit_model DecisionTreeClassifier dt_params train) X_test).

(** ** The run of lines 81-163, step by step *)

(** The references of the script: objects are numbered as they are made. *)
Definition handles : Handles :=
  {| knn := 0; svm := 1; dt := 2; meta_model := 3; stacking_model := 4; grid_search := 5 |}.

(** The store once the objects are constructed, once the search has cloned
    its base estimator (the clone is object 10), and once every candidate is
    evaluated. *)
Definition store_constructed : list object := store_after (construct []).

Definition store_cloned : list object := store_after (clone 4 store_constructed).

Definition candidates_run (train : Data) : result (list Q * list object) :=
  evaluate_candidates 10 5 train (ParameterGrid param_grid) store_cloned.

Definition store_evaluated (train : Data) : list object :=
  store_after (candidates_run train).

(** The refit when the search selects candidate [i] with score [s]. *)
Definition after_refit (train : Data) (i : nat) (s : Q) : result (unit * list object) :=
  refit 5 10 train (ParameterGrid param_grid !! i) s (store_evaluated train).

(** What the refit and the base learners give when the search selects
    candidate [i], from the store [h] the evaluation of the candidates left:
    the three base learners after the refit, and their predictions in the
    diversity analysis. *)
Definition refit_then_predict (train : Data) (X_test : Features) (s : Q)
    (h : list object) (i : nat)
  : option (list object * result (list Z * list Z * list Z)) :=
  match refit 5 10 train (ParameterGrid param_grid !! i) s h with
  | Ok ((), h') => Some (take 3 h', outcome (base_predictions handles train X_test h'))
  | Raise _ => None
  end.

Definition refit_then_predict_each (train : Data) (X_test : Features) (s : Q)
    (h : list object) :=
  refit_then_predict train X_test s h <$> seq 0 32.

(** The three base learners as their constructors make them, and what they
    predict when fitted as such. *)
Definition constructed_learners : list object :=
  [ Estimator KNeighborsClassifier knn_params None;
    Estimator SVC svm_params None;
    Estimator DecisionTreeClassifier dt_params None ].

Definition default_predictions (train : Data) (X_test : Features)
  : list Z * list Z * list Z :=
  (predict_model (fit_model KNeighborsClassifier knn_params train) X_test,
   predict_model (fit_model SVC svm_params train) X_test,
   predict_model (fit_model DecisionTreeClassifier dt_params train) X_test).
End Model.
End Estimators.

(** ** Example inputs *)

(** A small numeric parser for the examples: decimal digits only. *)
Definition digit_value (a : Ascii.ascii) : option Z :=
  let n := Z.of_N (Ascii.N_of_ascii a) in
  if bool_decide (48 <= n <= 57) then Some (n - 48) else None.

Fixpoint parse_digits (acc : Z) (s : string) : option Z :=
  match s with
  | EmptyString => Some acc
  | String a rest => d ← digit_value a; parse_digits (10 * acc + d) rest
  end.

Definition parse_decimal (s : string) : option number :=
  match s with
  | EmptyString => None
  | _ => NumInt <$> parse_digits 0 s
  end.


(** ** The harmonised schema as the specification words it *)

(** The labels of the first source, which the rename table targets. *)
Definition canonical_columns : list string :=
  ["Age"; "Sex"; "cp"; "trestbps"; "chol"; "fbs"; "restecg"; "thalach";
   "exang"; "oldpeak"; "slope"; "ca"; "num"].








(** ** Runs that leave the generator alone *)

(** A computation that neither reads nor advances the process-wide
    generator. *)
Definition generator_free {G A} (m : Run G A) : Prop :=
  forall g g' : G,
    match m g with
    | Ok (a, h) => h = g /\ m g' = Ok (a, g')
    | Raise e => m g' = Raise e
    end.

(** ** The scaler contract as the specification words it *)

(** The statistics of the scaler are a function of the training rows only:
    two feature matrices of the same height that agree on the rows selected
    for training are scaled with the same statistics. *)
Definition scaler_fit_on_train_only {G} `{RandomState G} (sqrt : Q -> Q) : Prop :=
  forall (X X' : Matrix) (y : Series) (g g1 g2 g3 : G) (train test : list nat)
         (p p' : Prepared),
    matrix_nrows X' = matrix_nrows X ->
    split_indices (matrix_nrows X) (2 # 10) (Some 42) g = Ok ((train, test), g1) ->
    take_matrix train X = take_matrix train X' ->
    scale_split sqrt X y g = Ok (p, g2) ->
    scale_split sqrt X' y g = Ok (p', g3) ->
    scaler p = scaler p'.

(** A generator for the examples: its state counts the draws, and a draw
    rotates [0..n) by the state. *)
Definition rotating_generator : RandomState nat :=
  {| seed := fun s => Z.to_nat s;
     permutation := fun g n => (rotate g (seq 0 n), S g) |}.

(** ** Reordering the learners *)

(** Exchanging two learners exchanges two entries of every row. *)
Definition swap12 (r : list Z) : list Z :=
  match r with
  | [x; y; z] => [y; x; z]
  | _ => r
  end.

Definition swap23 (r : list Z) : list Z :=
  match r with
  | [x; y; z] => [x; z; y]
  | _ => r
  end.

Definition is_triple (r : list Z) : Prop := exists x y z, r = [x; y; z].


(** ** Shapes *)

(** Every column of the frame has [n] cells. *)
Definition rectangular (df : DataFrame Series) (n : nat) : Prop :=
  Forall (fun c => series_len c.2 = n) df.

(** A frame of four rows for the examples. *)
Definition four_rows : DataFrame Series :=
  [("Age", Int64 [63; 41; 50; 58]); ("num", Int64 [0; 1; 1; 0])].

(** ** Frames of the store *)
Section Frames.
Import Estimators.
Context {Model : Type}.

(** The estimators an object refers to are at position [n] or after it. *)
Definition refs_from (n : nat) (o : @object Model) : Prop :=
  match o with
  | StackingClassifier estimators final_estimator _ _ =>
      Forall (fun ne : string * nat => (n <= ne.2)%nat) estimators
      /\ (n <= final_estimator)%nat
  | _ => True
  end.

(** The store [h] is the store [h0] followed by objects that refer only to
    objects made after [h0]. *)
Definition extends (h0 h : list (@object Model)) : Prop :=
  exists k, h = h0 ++ k /\ Forall (refs_from (length h0)) k.
End Frames.

(** A store of four objects for the examples: a base learner, a final
    estimator, an ensemble of the two and a search over the ensemble. *)
Definition small_store : list (@Estimators.object unit) :=
  [ Estimators.Estimator KNeighborsClassifier {[ "n_neighbors" := VInt 5 ]} None;
    Estimators.Estimator LogisticRegression {[ "C" := VFloat 1 ]} None;
    Estimators.StackingClassifier [("knn", 0%nat)] 1%nat 2 None;
    Estimators.GridSearchCV 2%nat [("knn__n_neighbors", [VInt 3; VInt 5])] 2 None ].

(** The search run on it, with a constant model and a constant score. *)
Definition small_search : result (unit * list (@Estimators.object unit)) :=
  Estimators.grid_search_fit (Data := unit) (fun _ _ _ => ()) (fun _ _ d => d)
    (fun _ _ d => d) (fun _ _ d => d) (fun _ _ _ => 1%Q) 3 () small_store.

(** A frame of fifteen rows for the examples. *)
Definition fifteen_rows : DataFrame Series :=
  [("Age", Int64 [63; 41; 50; 58; 44; 39; 61; 57; 52; 48; 66; 35; 70; 54; 46]);
   ("num", Int64 [0; 1; 1; 0; 0; 1; 0; 1; 1; 0; 0; 0; 1; 1; 0])].

(** Two loaded tables of eight and of seven rows for the examples; the first
    has a sentinel in its [Age] column. *)
Definition uci_eight : DataFrame RawSeries :=
  [("Age", RawObject [Some "63"; Some "?"; Some "50"; Some "58";
                      Some "44"; Some "39"; Some "61"; Some "57"]);
   ("num", RawInt [0; 2; 1; 0; 0; 3; 0; 1])].

Definition india_seven : DataFrame RawSeries :=
  [("patientid", RawInt [101; 102; 103; 104; 105; 106; 107]);
   ("age", RawInt [52; 48; 66; 35; 70; 54; 46]);
   ("target", RawInt [1; 0; 0; 0; 1; 1; 0])].

(** The run of lines 22-78 on them. *)
Definition prepared_example : result (Prepared * nat) :=
  @prepare parse_decimal (fun x => x) nat rotating_generator uci_eight india_seven 0%nat.

(** What the run returns; nothing when it raises. *)
Definition prepared_data : Prepared :=
  match prepared_example with
  | Ok (p, _) => p
  | Raise _ => {| scaler := []; X_train := []; X_test := [];
                  y_train := Int64 []; y_test := Int64 [] |}
  end.


(** * Properties *)

(** ** Label binarisation *)

Lemma Qgt_bool_spec (x y : Q) : Qgt_bool x y = true <-> (y < x)%Q.
Proof.
  unfold Qgt_bool. rewrite Qgt_alt.
  destruct (x ?= y)%Q; split; congruence.
Qed.

Lemma binarize_int_01 (x : Z) : binarize_int x = 0 ∨ binarize_int x = 1.
Proof. unfold binarize_int. destruct (x >? 0); auto. Qed.

Lemma binarize_float_01 (x : option Q) : binarize_float x = 0 ∨ binarize_float x = 1.
Proof. destruct x as [v|]; simpl; [destruct (Qgt_bool v 0)|]; auto. Qed.

Lemma apply_binarize_01 (s : Series) :
  Forall (fun z => z = 0 ∨ z = 1) (apply_binarize s).
Proof.
  destruct s as [xs|xs]; simpl; apply Forall_fmap, Forall_true; intros x; simpl.
  - apply binarize_int_01.
  - apply binarize_float_01.
Qed.

Lemma length_apply_binarize (s : Series) : length (apply_binarize s) = series_len s.
Proof. destruct s; simpl; apply length_fmap. Qed.

(** The label of a cell, seen as a float cell. *)
Lemma apply_binarize_lookup (s : Series) (i : nat) (c : option Q) :
  to_floats s !! i = Some c -> apply_binarize s !! i = Some (binarize_float c).
Proof.
  destruct s as [xs|xs]; simpl; rewrite !list_lookup_fmap.
  - destruct (xs !! i) as [z|]; simpl; [|done].
    intros [= <-]. f_equal. unfold binarize_int, binarize_float, Qgt_bool.
    unfold Qcompare; cbn [Qnum Qden inject_Z]. rewrite Z.mul_1_r.
    change (0 * 1)%Z with 0%Z. unfold Z.gtb. destruct (z ?= 0)%Z; reflexivity.
  - intros ->. reflexivity.
Qed.

(** ** Sentinel replacement, coercion and imputation *)

Lemma to_floats_fillna (m : option Q) (t : Series) :
  to_floats (fillna m t) = fill_cell m <$> to_floats t.
Proof.
  destruct t as [xs|xs]; simpl; [|done].
  rewrite <- list_fmap_compose. apply list_fmap_ext. by intros.
Qed.

(** ** Columns selected by label *)

Lemma select_fmap_snd {A B} (name : string) (f : string * A -> string * B)
    (g : A -> B) (df : DataFrame A) :
  (forall c, (f c).1 = c.1) ->
  (forall c, c.1 = name -> (f c).2 = g c.2) ->
  select name (f <$> df) = g <$> select name df.
Proof.
  intros Hf Hg. unfold select. induction df as [|c df IH]; [done|].
  rewrite fmap_cons, !filter_cons. rewrite Hf.
  destruct (decide (c.1 = name)) as [E|E]; simpl; [|exact IH].
  rewrite Hg by done. f_equal. exact IH.
Qed.

Lemma select_elem_of {A} (name : string) (df : DataFrame A) :
  select name df ≠ [] -> name ∈ columns df.
Proof.
  unfold select, columns. induction df as [|[n s] df IH]; [done|].
  rewrite filter_cons. simpl. intros Hne.
  destruct (decide (n = name)) as [->|E]; [left|].
  right. apply IH. exact Hne.
Qed.

Lemma filter_eq_NoDup (name : string) (names : list string) :
  NoDup names -> name ∈ names -> filter (fun n => n = name) names = [name].
Proof.
  induction 1 as [|n names Hn Hnd IH]; [by intros ?%elem_of_nil|].
  rewrite filter_cons. intros Hin.
  destruct (decide (n = name)) as [->|E].
  - f_equal. destruct (filter (λ n : string, n = name) names) as [|m ms] eqn:F; [done|].
    exfalso. apply Hn. assert (Hm : m ∈ filter (λ n : string, n = name) names) by (rewrite F; left).
    apply list_elem_of_filter in Hm as [-> ?]. done.
  - apply IH. apply elem_of_cons in Hin as [->|?]; done.
Qed.

Lemma select_zip_with (name : string) (g : Series -> Series -> Series)
    (a b : DataFrame Series) :
  columns a = columns b ->
  select name (zip_with (fun ca cb => (ca.1, g ca.2 cb.2)) a b)
  = zip_with g (select name a) (select name b).
Proof.
  unfold columns, select. revert b.
  induction a as [|[n s] a IH]; intros [|[m t] b]; simpl; try done.
  intros [= -> Hab]. rewrite !filter_cons. simpl.
  destruct (decide (m = name)); simpl; [f_equal|]; by apply IH.
Qed.

Lemma binarize_num_Ok (df df' : DataFrame Series) :
  binarize_num df = Ok df' ->
  exists s, getitem "num" df = Ok s
    /\ getitem "num" df' = Ok (Int64 (apply_binarize s))
    /\ columns df' = columns df
    /\ drop_columns "num" df' = drop_columns "num" df.
Proof.
  unfold binarize_num, getitem.
  destruct (select "num" df) as [|s [|]] eqn:Hsel; try discriminate.
  intros [= <-]. exists s. split; [done|].
  set (f := fun c : string * Series =>
              if bool_decide (c.1 = "num") then (c.1, Int64 (apply_binarize c.2)) else c).
  assert (Hfst : forall c, (f c).1 = c.1).
  { intros c. unfold f. by destruct (bool_decide _). }
  split; [|split].
  - rewrite (select_fmap_snd "num" f (fun s => Int64 (apply_binarize s))), Hsel; [done..|].
    intros c Hc. unfold f. by rewrite bool_decide_eq_true_2.
  - unfold columns. rewrite <- list_fmap_compose. apply list_fmap_ext.
    intros _ c _. apply Hfst.
  - unfold drop_columns. clear Hsel. induction df as [|c df IH]; [done|].
    rewrite fmap_cons, !filter_cons, Hfst.
    destruct (decide (c.1 ≠ "num")) as [E|E]; [|exact IH].
    rewrite IH. f_equal. unfold f. by rewrite bool_decide_eq_false_2.
Qed.

Lemma concat_columns_NoDup (a b : list string) :
  NoDup a -> NoDup b -> NoDup (a ++ filter (fun n : string => n ∉ a) b).
Proof.
  intros Ha Hb. apply NoDup_app. split; [done|]. split.
  - intros n Hn [Hf _]%list_elem_of_filter. done.
  - by apply NoDup_filter.
Qed.

Lemma select_of_labels {A} (name : string) (h : string -> A) (names : list string) :
  select name ((fun n => (n, h n)) <$> names) = h <$> filter (fun n => n = name) names.
Proof.
  unfold select. induction names as [|n names IH]; [done|].
  rewrite fmap_cons, !filter_cons. simpl.
  destruct (decide (n = name)); simpl; [f_equal|]; exact IH.
Qed.

Lemma concat_nonempty (a b : DataFrame Series) :
  a ≠ [] -> b ≠ [] -> concat a b = outer_join a b.
Proof. by destruct a, b. Qed.

Lemma concat_getitem_int (name : string) (a b c : DataFrame Series) (xs ys : list Z) :
  concat a b = Ok c ->
  getitem name a = Ok (Int64 xs) ->
  getitem name b = Ok (Int64 ys) ->
  getitem name c = Ok (Int64 (xs ++ ys)).
Proof.
  unfold getitem.
  destruct (select name a) as [|sa [|]] eqn:Ha; try discriminate. intros Hc [= ->].
  destruct (select name b) as [|sb [|]] eqn:Hb; try discriminate. intros [= ->].
  rewrite concat_nonempty in Hc by (intros ->; discriminate).
  revert Hc. unfold outer_join. case_bool_decide as Hcols.
  - intros [= <-]. by rewrite select_zip_with, Ha, Hb.
  - case_bool_decide as Hnd; [|discriminate]. destruct Hnd as [Hnda Hndb].
    intros [= <-].
    rewrite select_of_labels, filter_eq_NoDup.
    + simpl. unfold column_or_nan. by rewrite Ha, Hb.
    + by apply concat_columns_NoDup.
    + apply elem_of_app. left. apply select_elem_of. by rewrite Ha.
Qed.

(** ** The label binariser *)

(** C9: the label binariser is total on missing data.  Whenever the outcome
    column can be selected, binarisation succeeds; it gives one label per
    cell, the label of a missing (NaN) cell is 0, and every label is 0 or 1. *)
Theorem C9_binarizer_total_on_missing (df : DataFrame Series) (s : Series) :
  getitem "num" df = Ok s ->
  exists df',
    binarize_num df = Ok df'
    /\ getitem "num" df' = Ok (Int64 (apply_binarize s))
    /\ length (apply_binarize s) = series_len s
    /\ (forall i, to_floats s !! i = Some None -> apply_binarize s !! i = Some 0)
    /\ Forall (fun z => z = 0 \/ z = 1) (apply_binarize s).
Proof.
  intros Hs.
  assert (Hok : exists df', binarize_num df = Ok df').
  { revert Hs. unfold getitem, binarize_num.
    destruct (select "num" df) as [|? [|]]; try discriminate. eauto. }
  destruct Hok as [df' Hdf']. exists df'. split; [done|].
  destruct (binarize_num_Ok _ _ Hdf') as (s' & Hs' & Hnum & _).
  rewrite Hs in Hs'. injection Hs' as <-.
  repeat split.
  - exact Hnum.
  - apply length_apply_binarize.
  - intros i Hi. by rewrite (apply_binarize_lookup _ _ _ Hi).
  - apply apply_binarize_01.
Qed.

Lemma C9_binarizer_total_on_missing_witness :
  exists df',
    binarize_num [("Age", Int64 [63; 41]); ("num", Float64 [None; Some (2 # 1)])] = Ok df'
    /\ getitem "num" df' = Ok (Int64 (apply_binarize (Float64 [None; Some (2 # 1)])))
    /\ length (apply_binarize (Float64 [None; Some (2 # 1)])) = 2%nat
    /\ (forall i, to_floats (Float64 [None; Some (2 # 1)]) !! i = Some None ->
          apply_binarize (Float64 [None; Some (2 # 1)]) !! i = Some 0)
    /\ Forall (fun z => z = 0 \/ z = 1) (apply_binarize (Float64 [None; Some (2 # 1)])).
Proof.
  apply (C9_binarizer_total_on_missing
           [("Age", Int64 [63; 41]); ("num", Float64 [None; Some (2 # 1)])]
           (Float64 [None; Some (2 # 1)])).
  reflexivity.
Defined.

(** C6: the label binariser.  When the two harmonised data sets combine,
    each had exactly one outcome column; the outcome column of the combined
    data is the labels of the first data set followed by the labels of the
    second, each computed from that data set's own column; the label of a
    cell [v] is 1 if [v > 0] and 0 otherwise; and every label is 0 or 1. *)
Theorem C6_label_binarizer (uci_df india_df combined : DataFrame Series) :
  combine uci_df india_df = Ok combined ->
  exists su si,
    getitem "num" uci_df = Ok su
    /\ getitem "num" india_df = Ok si
    /\ getitem "num" combined = Ok (Int64 (apply_binarize su ++ apply_binarize si))
    /\ (forall s i c, to_floats s !! i = Some c ->
          apply_binarize s !! i
          = Some (match c with
                  | Some v => if Qlt_le_dec 0 v then 1 else 0
                  | None => 0
                  end))
    /\ Forall (fun z => z = 0 \/ z = 1) (apply_binarize su ++ apply_binarize si).
Proof.
  unfold combine. intros Hc.
  destruct (binarize_num uci_df) as [uci'|] eqn:Hu; [|discriminate].
  destruct (binarize_num india_df) as [india'|] eqn:Hi; [|discriminate].
  simpl in Hc.
  destruct (binarize_num_Ok _ _ Hu) as (su & Hsu & Hu' & _).
  destruct (binarize_num_Ok _ _ Hi) as (si & Hsi & Hi' & _).
  exists su, si. repeat split; try done.
  - exact (concat_getitem_int "num" _ _ _ _ _ Hc Hu' Hi').
  - intros s i c Hcell. rewrite (apply_binarize_lookup _ _ _ Hcell). f_equal.
    destruct c as [v|]; simpl; [|done].
    destruct (Qlt_le_dec 0 v) as [Hlt|Hle].
    + apply Qgt_bool_spec in Hlt. by rewrite Hlt.
    + destruct (Qgt_bool v 0) eqn:E; [|done].
      apply Qgt_bool_spec in E. exfalso. by apply (Qlt_not_le 0 v).
  - apply Forall_app. split; apply apply_binarize_01.
Qed.

Lemma C6_label_binarizer_witness :
  exists su si,
    getitem "num" [("num", Float64 [Some (2 # 1); None; Some 0%Q])] = Ok su
    /\ getitem "num" [("num", Int64 [0; 3])] = Ok si
    /\ getitem "num" [("num", Int64 [1; 0; 0; 0; 1])]
       = Ok (Int64 (apply_binarize su ++ apply_binarize si))
    /\ (forall s i c, to_floats s !! i = Some c ->
          apply_binarize s !! i
          = Some (match c with
                  | Some v => if Qlt_le_dec 0 v then 1 else 0
                  | None => 0
                  end))
    /\ Forall (fun z => z = 0 \/ z = 1) (apply_binarize su ++ apply_binarize si).
Proof.
  apply (C6_label_binarizer
           [("num", Float64 [Some (2 # 1); None; Some 0%Q])]
           [("num", Int64 [0; 3])]).
  reflexivity.
Defined.

(** ** The cleaning block *)

(** C7: the sentinel -9 in a column of numbers.  A column whose cells are
    all integers is loaded as [int64] and the cleaning block leaves it as it
    is: the column 0, -9, 3 keeps its cell -9, where the specification has
    every occurrence of the token replaced and filled with the mean 3/2 of
    the other cells.  In a column loaded as text, here because of a "?",
    the code does replace "-9" and fills both cells with that mean. *)
Theorem C7_numeric_sentinel_kept :
  (forall parse zs, clean_series parse (RawInt zs) = Int64 zs)
  /\ clean parse_decimal [("ca", RawInt [0; -9; 3])] = [("ca", Int64 [0; -9; 3])]
  /\ spec_clean parse_decimal (raw_cells (RawInt [0; -9; 3]))
     = [Some (0 # 1); Some (3 # 2); Some (3 # 1)]
  /\ clean parse_decimal [("ca", RawObject [Some "0"; Some "-9"; Some "3"; Some "?"])]
     = [("ca", Float64 [Some (0 # 1); Some (3 # 2); Some (3 # 1); Some (3 # 2)])].
Proof.
  split; [reflexivity|]. split; [reflexivity|]. split; vm_compute; reflexivity.
Qed.

Example clean_example :
  clean parse_decimal
    [("Age", RawInt [63; 41]); ("ca", RawObject [Some "3"; Some "?"; Some "-9"; Some "x"; Some "1"])]
  = [("Age", Int64 [63; 41]);
     ("ca", Float64 [Some (3 # 1); Some (4 # 2); Some (4 # 2); Some (4 # 2); Some (1 # 1)])].
Proof. vm_compute. reflexivity. Qed.

(** ** Concatenation *)





(** ** The harmonised schema *)

Lemma columns_clean parse (df : DataFrame RawSeries) : columns (clean parse df) = columns df.
Proof.
  unfold clean, columns. rewrite <- list_fmap_compose.
  apply list_fmap_ext. by intros _ [] _.
Qed.

Lemma columns_rename {A} m (df : DataFrame A) :
  columns (rename m df) = rename_label m <$> columns df.
Proof.
  unfold rename, columns. rewrite <- !list_fmap_compose.
  apply list_fmap_ext. by intros _ [] _.
Qed.

Lemma columns_drop_columns {A} (name : string) (df : DataFrame A) :
  columns (drop_columns name df) = filter (fun n => n ≠ name) (columns df).
Proof.
  unfold drop_columns, columns. induction df as [|[n s] df IH]; [done|].
  rewrite fmap_cons, !filter_cons. cbn [fst].
  destruct (decide (n ≠ name)); [rewrite fmap_cons; f_equal|]; exact IH.
Qed.







(** ** Scaling a constant column *)











(** ** Determinism of sampling and splitting *)

Section Determinism.
Context {G : Type} `{RandomState G}.

Lemma generator_free_lift {A} (r : result A) : generator_free (G:=G) (lift r).
Proof. intros g g'. unfold lift. by destruct r. Qed.

Lemma generator_free_ret {A} (a : A) : generator_free (G:=G) (mret a).
Proof. by intros g g'. Qed.

Lemma generator_free_bind {A B} (m : Run G A) (k : A -> Run G B) :
  generator_free m -> (forall a, generator_free (k a)) ->
  generator_free (m ≫= k).
Proof.
  intros Hm Hk g g'. specialize (Hm g g').
  unfold mbind, Run_bind.
  destruct (m g) as [[a h]|e].
  - destruct Hm as [-> ->]. apply Hk.
  - by rewrite Hm.
Qed.

Lemma generator_free_draw (s : Z) (n : nat) :
  generator_free (draw_permutation (Some s) n).
Proof. by intros g g'. Qed.

Lemma generator_free_sample (frac : Q) (s : Z) (df : DataFrame Series) :
  generator_free (sample frac (Some s) df).
Proof.
  unfold sample. destruct (Qle_bool 0 frac && Qle_bool frac 1).
  - apply generator_free_bind.
    + apply generator_free_draw.
    + intros locs. apply generator_free_lift.
  - apply generator_free_lift.
Qed.

Lemma generator_free_split_indices (n : nat) (test_size : Q) (s : Z) :
  generator_free (split_indices n test_size (Some s)).
Proof.
  unfold split_indices. case_bool_decide.
  - apply generator_free_lift.
  - apply generator_free_bind; [apply generator_free_draw|].
    intros p. apply generator_free_ret.
Qed.

Lemma generator_free_train_test_split (X : Matrix) (y : Series) (test_size : Q) (s : Z) :
  generator_free (train_test_split X y test_size (Some s)).
Proof.
  unfold train_test_split. case_bool_decide; [|apply generator_free_lift].
  apply generator_free_bind; [apply generator_free_split_indices|].
  intros [train test].
  repeat (apply generator_free_bind; [apply generator_free_lift|]; intros ?).
  apply generator_free_ret.
Qed.

Lemma generator_free_scale_split sqrt (X : Matrix) (y : Series) :
  generator_free (scale_split sqrt X y).
Proof.
  unfold scale_split.
  apply generator_free_bind; [apply generator_free_lift|]. intros [stats Xs].
  apply generator_free_bind; [apply generator_free_train_test_split|].
  intros [[[? ?] ?] ?]. apply generator_free_ret.
Qed.

Lemma generator_free_prepare parse sqrt (uci_df india_df : DataFrame RawSeries) :
  generator_free (prepare parse sqrt uci_df india_df).
Proof.
  unfold prepare, sample_scale_split.
  apply generator_free_bind; [apply generator_free_lift|]. intros combined.
  apply generator_free_bind; [apply generator_free_sample|]. intros sampled.
  apply generator_free_bind; [apply generator_free_lift|]. intros X.
  apply generator_free_bind; [apply generator_free_lift|]. intros y.
  apply generator_free_scale_split.
Qed.

Lemma generator_free_outcome {A} (m : Run G A) (g1 g2 : G) :
  generator_free m -> outcome (m g1) = outcome (m g2).
Proof.
  intros Hm. specialize (Hm g1 g2).
  destruct (m g1) as [[a h]|e].
  - destruct Hm as [_ ->]. reflexivity.
  - by rewrite Hm.
Qed.

(** C8: determinism of sampling and splitting.  Whatever state the
    process-wide generator is in when a run starts, sampling with a seed
    selects the same rows in the same order, splitting with a seed yields the
    same partitions, and so does the whole pipeline of the script up to the
    split, with seed 42, sample fraction 0.1 and test fraction 0.2. *)
Theorem C8_two_run_determinism (parse : string -> option number) (sqrt : Q -> Q)
    (g1 g2 : G) :
  (forall frac s (df : DataFrame Series),
      outcome (sample frac (Some s) df g1) = outcome (sample frac (Some s) df g2))
  /\ (forall (X : Matrix) y test_size s,
        outcome (train_test_split X y test_size (Some s) g1)
        = outcome (train_test_split X y test_size (Some s) g2))
  /\ (forall uci_df india_df : DataFrame RawSeries,
        outcome (prepare parse sqrt uci_df india_df g1)
        = outcome (prepare parse sqrt uci_df india_df g2)).
Proof.
  split; [|split]; intros.
  - apply generator_free_outcome, generator_free_sample.
  - apply generator_free_outcome, generator_free_train_test_split.
  - apply generator_free_outcome, generator_free_prepare.
Qed.
End Determinism.

(** ** The scaler and the split *)

Lemma rotating_generator_laws : @RandomStateLaws nat rotating_generator.
Proof.
  constructor. intros g n. simpl. unfold rotate.
  rewrite Permutation_app_comm. by rewrite take_drop.
Qed.

Lemma take_list_is_Some {A} (idx : list nat) (xs : list A) :
  Forall (fun j => (j < length xs)%nat) idx -> is_Some (take_list idx xs).
Proof.
  unfold take_list. induction 1 as [|j idx Hj _ IH]; [by eexists|].
  destruct (lookup_lt_is_Some_2 xs j Hj) as [x Hx]. destruct IH as [ys Hys].
  exists (x :: ys). simpl. rewrite Hx. simpl. by rewrite Hys.
Qed.

Lemma take_list_ext {A} (idx : list nat) (xs ys : list A) :
  Forall (fun j => xs !! j = ys !! j) idx -> take_list idx xs = take_list idx ys.
Proof.
  unfold take_list. induction 1 as [|j idx Hj _ IH]; [done|].
  simpl. by rewrite Hj, IH.
Qed.

Lemma take_list_length {A} (idx : list nat) (xs ys : list A) :
  take_list idx xs = Some ys -> length ys = length idx.
Proof. unfold take_list. intros Hm. by apply length_mapM in Hm. Qed.

Section ScaleSplit.
Context {G : Type} `{RandomState G}.
Variable sqrt : Q -> Q.

Lemma split_indices_seeded (n : nat) (test_size : Q) (s : Z) (g g' : G) train test :
  split_indices n test_size (Some s) g = Ok ((train, test), g') ->
  g' = g /\ exists p, p = (permutation (seed s) n).1
    /\ test = take (Z.to_nat (Qceiling (test_size * inject_Z (Z.of_nat n)))) p
    /\ train = take (n - Z.to_nat (Qceiling (test_size * inject_Z (Z.of_nat n))))
                 (drop (Z.to_nat (Qceiling (test_size * inject_Z (Z.of_nat n)))) p).
Proof.
  unfold split_indices. case_bool_decide; [discriminate|].
  intros [= <- <- <-]. split; [done|]. eexists. split; [reflexivity|]. done.
Qed.

(** What [scale_split] returns when it returns. *)
Lemma scale_split_Ok (X : Matrix) (y : Series) (g g' : G) (p : Prepared) :
  scale_split sqrt X y g = Ok (p, g') ->
  g' = g
  /\ fit sqrt X = Ok (scaler p)
  /\ scaler p = fit_column sqrt <$> X
  /\ exists train test,
       split_indices (matrix_nrows (transform (scaler p) X)) (2 # 10) (Some 42) g
       = Ok ((train, test), g)
       /\ take_matrix train (transform (scaler p) X) = Some (X_train p)
       /\ take_matrix test (transform (scaler p) X) = Some (X_test p)
       /\ take_series train y = Some (y_train p)
       /\ take_series test y = Some (y_test p).
Proof.
  unfold scale_split, fit_transform.
  unfold mbind at 1, Run_bind, lift.
  destruct (fit sqrt X) as [stats|e] eqn:Hfit; simpl; [|discriminate].
  unfold train_test_split. case_bool_decide as Hlen; [|discriminate].
  unfold mbind at 1, Run_bind.
  unfold mbind at 1, Run_bind.
  destruct (split_indices _ _ _ g) as [[[train test] g1]|e] eqn:Hsplit; [|discriminate].
  destruct (split_indices_seeded _ _ _ _ _ _ _ Hsplit) as [-> _].
  unfold mbind, Run_bind, lift, mret, Run_ret.
  destruct (take_matrix train _) as [Xtr|] eqn:E1; simpl; [|discriminate].
  destruct (take_matrix test _) as [Xte|] eqn:E2; simpl; [|discriminate].
  destruct (take_series train y) as [ytr|] eqn:E3; simpl; [|discriminate].
  destruct (take_series test y) as [yte|] eqn:E4; simpl; [|discriminate].
  intros [= <- <-]. simpl. split; [done|]. split; [done|]. split.
  - revert Hfit. unfold fit. case_bool_decide; [discriminate|]. by intros [= <-].
  - exists train, test. done.
Qed.
End ScaleSplit.

Lemma take_matrix_is_Some (idx : list nat) (M : Matrix) (n : nat) :
  Forall (fun col => length col = n) M ->
  Forall (fun j => (j < n)%nat) idx ->
  is_Some (take_matrix idx M).
Proof.
  intros HM Hidx. unfold take_matrix. apply mapM_is_Some.
  eapply Forall_impl; [exact HM|]. intros col Hcol. simpl.
  apply take_list_is_Some. by rewrite Hcol.
Qed.

Lemma take_series_is_Some (idx : list nat) (y : Series) :
  Forall (fun j => (j < series_len y)%nat) idx -> is_Some (take_series idx y).
Proof.
  intros Hidx. destruct y as [xs|xs]; simpl in *;
    destruct (take_list_is_Some idx xs Hidx) as [ys ->]; by eexists.
Qed.

Lemma transform_shape sqrt (X : Matrix) (n : nat) :
  Forall (fun col => length col = n) X ->
  Forall (fun col => length col = n) (transform (fit_column sqrt <$> X) X).
Proof.
  unfold transform. induction 1 as [|col X Hcol _ IH]; [constructor|].
  simpl. constructor; [by rewrite length_fmap|exact IH].
Qed.

Lemma matrix_nrows_transform sqrt (X : Matrix) :
  matrix_nrows (transform (fit_column sqrt <$> X) X) = matrix_nrows X.
Proof. destruct X as [|col X]; [done|]. simpl. apply length_fmap. Qed.

Section ScaleSplitTotal.
Context {G : Type} `{RandomState G}.
Variable sqrt : Q -> Q.

(** [scale_split] returns whenever the matrix is rectangular with a row and a
    column, the labels have its height and the split indices are in range. *)
Lemma scale_split_total (X : Matrix) (y : Series) (g : G) (train test : list nat) :
  length X ≠ 0%nat -> matrix_nrows X ≠ 0%nat ->
  Forall (fun col => length col = matrix_nrows X) X ->
  series_len y = matrix_nrows X ->
  split_indices (matrix_nrows X) (2 # 10) (Some 42) g = Ok ((train, test), g) ->
  Forall (fun j => (j < matrix_nrows X)%nat) train ->
  Forall (fun j => (j < matrix_nrows X)%nat) test ->
  exists p, scale_split sqrt X y g = Ok (p, g) /\ scaler p = fit_column sqrt <$> X.
Proof.
  intros HX Hrows Hrect Hy Hsplit Htrain Htest.
  unfold scale_split, fit_transform, fit.
  rewrite bool_decide_eq_false_2 by tauto.
  unfold mbind at 1, Run_bind, lift. simpl.
  unfold train_test_split. rewrite matrix_nrows_transform.
  rewrite bool_decide_eq_true_2 by done.
  unfold mbind at 1, Run_bind. unfold mbind at 1, Run_bind. rewrite Hsplit.
  pose proof (transform_shape sqrt X _ Hrect) as Hshape.
  destruct (take_matrix_is_Some train _ _ Hshape Htrain) as [Xtr E1].
  destruct (take_matrix_is_Some test _ _ Hshape Htest) as [Xte E2].
  rewrite <- Hy in Htrain, Htest.
  destruct (take_series_is_Some train y Htrain) as [ytr E3].
  destruct (take_series_is_Some test y Htest) as [yte E4].
  unfold mbind, Run_bind, lift, mret, Run_ret.
  rewrite E1, E2, E3, E4. simpl. eexists. split; reflexivity.
Qed.

(** C1 (as the code has it): the scaler is fitted once, on the whole sampled
    feature matrix, before the split.  When the script reaches line 78, the
    statistics it holds are those of all rows of [X], and the training and
    the test partition are both rows of the one matrix scaled with them. *)
Theorem C1_scaler_fit_on_whole_sample (X : Matrix) (y : Series) (g g' : G)
    (p : Prepared) :
  scale_split sqrt X y g = Ok (p, g') ->
  scaler p = fit_column sqrt <$> X
  /\ exists train test,
       split_indices (matrix_nrows (transform (scaler p) X)) (2 # 10) (Some 42) g
       = Ok ((train, test), g)
       /\ take_matrix train (transform (scaler p) X) = Some (X_train p)
       /\ take_matrix test (transform (scaler p) X) = Some (X_test p).
Proof.
  intros Hrun.
  destruct (scale_split_Ok sqrt X y g g' p Hrun)
    as (_ & _ & Hstats & train & test & Hsplit & Htr & Hte & _).
  split; [exact Hstats|]. exists train, test. done.
Qed.
End ScaleSplitTotal.

Lemma C1_scaler_fit_on_whole_sample_witness :
  exists p,
    @scale_split (fun x => x) nat rotating_generator
      [[Some (1 # 1); Some (2 # 1); Some (3 # 1); Some (4 # 1); Some (5 # 1)]]
      (Int64 [0; 1; 0; 1; 1]) 0%nat = Ok (p, 0%nat)
    /\ scaler p
       = fit_column (fun x => x)
           <$> [[Some (1 # 1); Some (2 # 1); Some (3 # 1); Some (4 # 1); Some (5 # 1)]]
    /\ exists train test,
         @split_indices nat rotating_generator
           (matrix_nrows (transform (scaler p)
              [[Some (1 # 1); Some (2 # 1); Some (3 # 1); Some (4 # 1); Some (5 # 1)]]))
           (2 # 10) (Some 42) 0%nat
         = Ok ((train, test), 0%nat)
         /\ take_matrix train (transform (scaler p)
              [[Some (1 # 1); Some (2 # 1); Some (3 # 1); Some (4 # 1); Some (5 # 1)]])
            = Some (X_train p)
         /\ take_matrix test (transform (scaler p)
              [[Some (1 # 1); Some (2 # 1); Some (3 # 1); Some (4 # 1); Some (5 # 1)]])
            = Some (X_test p).
Proof.
  eexists. split; [vm_compute; reflexivity|].
  apply (@C1_scaler_fit_on_whole_sample nat rotating_generator (fun x => x)
           [[Some (1 # 1); Some (2 # 1); Some (3 # 1); Some (4 # 1); Some (5 # 1)]]
           (Int64 [0; 1; 0; 1; 1]) 0%nat 0%nat).
  vm_compute. reflexivity.
Defined.

Example split_example :
  outcome (@split_indices nat rotating_generator 5 (2 # 10) (Some 42) 0%nat)
  = Ok ([3; 4; 0; 1], [2])%nat.
Proof. vm_compute. reflexivity. Qed.

(** C1, as stated, fails for every generator and every square root: with
    five sampled rows one row is held out; changing that row alone leaves the
    training rows as they were and changes the mean the scaler is fitted
    with. *)
Lemma C1_counterexample :
  ~ exists (G : Type) (R : RandomState G) (L : RandomStateLaws G) (sqrt : Q -> Q),
      @scaler_fit_on_train_only G R sqrt.
Proof.
  intros (G & R & L & sqrt & Hclaim).
  pose (g := seed 0).
  pose proof (permutation_perm (seed 42) 5) as Hperm.
  destruct (permutation (seed 42) 5) as [p0 gp] eqn:Hp0. cbn [fst] in Hperm.
  pose proof (Permutation_length Hperm) as Hlen. rewrite length_seq in Hlen.
  destruct p0 as [|i rest]; [discriminate|].
  assert (Hnd : NoDup (i :: rest)) by (rewrite Hperm; apply NoDup_seq).
  apply NoDup_cons in Hnd as [Hi Hnd].
  assert (Hrange : Forall (fun j => (j < 5)%nat) (i :: rest)).
  { rewrite Hperm. apply Forall_forall. intros j Hj%elem_of_seq. lia. }
  apply Forall_cons in Hrange as [Hi5 Hrest5].
  set (col := replicate 5 (Some 0%Q)).
  set (col' := <[i := Some (5 # 1)]> col).
  set (y := Int64 (replicate 5 0)).
  assert (Hsplit : split_indices 5 (2 # 10) (Some 42) g = Ok ((rest, [i]), g)).
  { unfold split_indices, draw_permutation.
    change (Z.to_nat (Qceiling ((2 # 10) * inject_Z (Z.of_nat 5)))) with 1%nat.
    simpl. unfold mbind, Run_bind, mret, Run_ret. rewrite Hp0. simpl.
    rewrite drop_0. do 4 (destruct rest as [|? rest]; [discriminate|]).
    destruct rest; [reflexivity|discriminate]. }
  assert (Hcol' : length col' = 5%nat) by (unfold col'; by rewrite length_insert).
  assert (Hp : exists p, scale_split sqrt [col] y g = Ok (p, g)
                         /\ scaler p = fit_column sqrt <$> [col]).
  { apply (scale_split_total sqrt [col] y g rest [i]); try done.
    - by apply Forall_singleton.
    - by apply Forall_singleton. }
  assert (Hp' : exists p', scale_split sqrt [col'] y g = Ok (p', g)
                           /\ scaler p' = fit_column sqrt <$> [col']).
  { apply (scale_split_total sqrt [col'] y g rest [i]); simpl; rewrite ?Hcol'; try done.
    - by apply Forall_singleton.
    - by apply Forall_singleton. }
  destruct Hp as (p & Hrun & Hstats). destruct Hp' as (p' & Hrun' & Hstats').
  assert (Htrain : take_matrix rest [col] = take_matrix rest [col']).
  { unfold take_matrix. simpl. rewrite (take_list_ext rest col col'); [done|].
    apply Forall_forall. intros j Hj. unfold col'.
    rewrite list_lookup_insert_ne; [done|]. intros ->. done. }
  assert (Hrows : matrix_nrows [col'] = matrix_nrows [col]).
  { simpl. by rewrite Hcol'. }
  pose proof (Hclaim [col] [col'] y g g g g rest [i] p p' Hrows Hsplit Htrain Hrun Hrun')
    as Heq.
  rewrite Hstats, Hstats' in Heq. apply (f_equal (fmap mean_)) in Heq.
  unfold col', col in Heq.
  do 5 (destruct i as [|i]; [vm_compute in Heq; discriminate Heq|]).
  lia.
Qed.

(** ** What does hold of the diversity score of the code *)

Lemma Qsum_bounds (xs : list Q) :
  Forall (fun x => (0 <= x <= 1)%Q) xs ->
  (0 <= Qsum xs <= inject_Z (Z.of_nat (length xs)))%Q.
Proof.
  induction 1 as [|x xs [Hx0 Hx1] _ [IH0 IH1]].
  - simpl. split; apply Qle_refl.
  - cbn [Qsum foldr length]. fold (Qsum xs).
    rewrite Nat2Z.inj_succ. unfold Z.succ. rewrite inject_Z_plus.
    change (inject_Z 1) with 1%Q.
    set (n := inject_Z (Z.of_nat (length xs))) in *. split; lra.
Qed.

Lemma Qmean_bounds (xs : list Q) (q : Q) :
  Forall (fun x => (0 <= x <= 1)%Q) xs -> Qmean xs = Some q -> (0 <= q <= 1)%Q.
Proof.
  intros Hxs Hq. destruct (Qsum_bounds _ Hxs) as [H0 H1].
  destruct xs as [|x xs]; [discriminate|].
  assert (Hn : (0 < inject_Z (Z.of_nat (length (x :: xs))))%Q).
  { change 0%Q with (inject_Z 0). rewrite <- Zlt_Qlt. simpl length. lia. }
  unfold Qmean in Hq.
  remember (Qsum (x :: xs)) as sm eqn:Hsm.
  remember (inject_Z (Z.of_nat (length (x :: xs)))) as n eqn:Hnn.
  injection Hq as <-. split.
  - apply Qle_shift_div_l; [exact Hn|]. lra.
  - apply Qle_shift_div_r; [exact Hn|]. lra.
Qed.

Lemma hamming_bounds (u v : list Z) : (0 <= hamming u v <= 1)%Q.
Proof.
  unfold hamming.
  set (k := length (filter (fun p : Z * Z => p.1 ≠ p.2) (zip u v))).
  assert (Hk : (k <= length u)%nat).
  { unfold k. etrans; [apply length_filter|]. rewrite length_zip. lia. }
  destruct (length u) as [|n] eqn:Hn.
  - assert (k = 0%nat) as -> by lia. split; [apply Qle_refl|]. by vm_compute.
  - assert (Hpos : (0 < inject_Z (Z.of_nat (S n)))%Q).
    { change 0%Q with (inject_Z 0). rewrite <- Zlt_Qlt. lia. }
    split.
    + apply Qle_shift_div_l; [exact Hpos|].
      rewrite Qmult_0_l. change 0%Q with (inject_Z 0). rewrite <- Zle_Qle. lia.
    + apply Qle_shift_div_r; [exact Hpos|].
      rewrite Qmult_1_l. rewrite <- Zle_Qle. lia.
Qed.

(** The score of the code lies in [0,1]. *)
Lemma disagreements_range (knn_pred svm_pred dt_pred : list Z) (q : Q) :
  disagreements knn_pred svm_pred dt_pred = Ok q -> (0 <= q <= 1)%Q.
Proof.
  unfold disagreements, pred_matrix.
  case_bool_decide; [|discriminate]. simpl.
  unfold pairwise_distances_mean.
  set (M := zip_with _ _ _).
  destruct (Qmean _) as [q'|] eqn:Hmean; [|discriminate].
  intros [= <-]. revert Hmean. apply Qmean_bounds.
  apply Forall_forall. intros x Hx.
  apply list_elem_of_bind in Hx as (r1 & Hx & _).
  apply list_elem_of_bind in Hx as (r2 & Hx & _).
  apply list_elem_of_singleton in Hx as ->. apply hamming_bounds.
Qed.

Lemma hamming_swap12 (r1 r2 : list Z) :
  is_triple r1 -> is_triple r2 -> hamming (swap12 r1) (swap12 r2) = hamming r1 r2.
Proof.
  intros (x1 & y1 & z1 & ->) (x2 & y2 & z2 & ->). unfold hamming. simpl.
  rewrite !filter_cons, filter_nil. simpl.
  destruct (decide (x1 ≠ x2)), (decide (y1 ≠ y2)), (decide (z1 ≠ z2)); reflexivity.
Qed.

Lemma hamming_swap23 (r1 r2 : list Z) :
  is_triple r1 -> is_triple r2 -> hamming (swap23 r1) (swap23 r2) = hamming r1 r2.
Proof.
  intros (x1 & y1 & z1 & ->) (x2 & y2 & z2 & ->). unfold hamming. simpl.
  rewrite !filter_cons, filter_nil. simpl.
  destruct (decide (x1 ≠ x2)), (decide (y1 ≠ y2)), (decide (z1 ≠ z2)); reflexivity.
Qed.

Lemma pred_matrix_triples (knn_pred svm_pred dt_pred : list Z) (M : list (list Z)) :
  pred_matrix knn_pred svm_pred dt_pred = Ok M -> Forall is_triple M.
Proof.
  unfold pred_matrix. case_bool_decide; [|discriminate]. intros [= <-].
  apply Forall_forall. intros r Hr.
  apply elem_of_lookup_zip_with in Hr as (i & a & bc & -> & _ & _).
  by exists a, bc.1, bc.2.
Qed.

Lemma pred_matrix_swap12 (knn_pred svm_pred dt_pred : list Z) (M : list (list Z)) :
  pred_matrix knn_pred svm_pred dt_pred = Ok M ->
  pred_matrix svm_pred knn_pred dt_pred = Ok (swap12 <$> M).
Proof.
  unfold pred_matrix. case_bool_decide as Hlen; [|discriminate]. intros [= <-].
  rewrite bool_decide_eq_true_2 by (destruct Hlen; split; congruence).
  f_equal. clear Hlen. revert svm_pred dt_pred.
  induction knn_pred as [|a knn_pred IH]; intros [|b svm_pred] [|c dt_pred];
    simpl; try done.
  f_equal. apply IH.
Qed.

Lemma pred_matrix_swap23 (knn_pred svm_pred dt_pred : list Z) (M : list (list Z)) :
  pred_matrix knn_pred svm_pred dt_pred = Ok M ->
  pred_matrix knn_pred dt_pred svm_pred = Ok (swap23 <$> M).
Proof.
  unfold pred_matrix. case_bool_decide as Hlen; [|discriminate]. intros [= <-].
  rewrite bool_decide_eq_true_2 by (destruct Hlen; split; congruence).
  f_equal. clear Hlen. revert svm_pred dt_pred.
  induction knn_pred as [|a knn_pred IH]; intros [|b svm_pred] [|c dt_pred];
    simpl; try done.
  f_equal. apply IH.
Qed.

Lemma pairwise_distances_fmap (g : list Z -> list Z) (M : list (list Z)) :
  (forall r1 r2, r1 ∈ M -> r2 ∈ M -> hamming (g r1) (g r2) = hamming r1 r2) ->
  pairwise_distances_mean (g <$> M) = pairwise_distances_mean M.
Proof.
  intros Hg. unfold pairwise_distances_mean. f_equal. f_equal.
  assert (Hgen : forall N N' : list (list Z), N ⊆ M -> N' ⊆ M ->
             (r1 ← g <$> N; r2 ← g <$> N'; [hamming r1 r2])
             = (r1 ← N; r2 ← N'; [hamming r1 r2])).
  { induction N as [|r1 N IH]; intros N' HN HN'; [done|].
    rewrite fmap_cons, !bind_cons. f_equal.
    - clear IH. induction N' as [|r2 N' IH']; [done|].
      rewrite fmap_cons, !bind_cons. f_equal.
      + simpl. f_equal. apply Hg; [apply HN|apply HN']; left.
      + apply IH'. intros x Hx. apply HN'. by right.
    - apply IH; [|done]. intros x Hx. apply HN. by right. }
  by apply Hgen.
Qed.

(** The score of the code does not depend on the order of the learners:
    exchanging the first two, or the last two, leaves it as it is. *)
Lemma disagreements_reorder (knn_pred svm_pred dt_pred : list Z) :
  disagreements svm_pred knn_pred dt_pred = disagreements knn_pred svm_pred dt_pred
  /\ disagreements knn_pred dt_pred svm_pred = disagreements knn_pred svm_pred dt_pred.
Proof.
  unfold disagreements.
  destruct (pred_matrix knn_pred svm_pred dt_pred) as [M|e] eqn:HM.
  - pose proof (pred_matrix_triples _ _ _ _ HM) as Htriples.
    rewrite Forall_forall in Htriples.
    rewrite (pred_matrix_swap12 _ _ _ _ HM), (pred_matrix_swap23 _ _ _ _ HM). simpl.
    split; apply pairwise_distances_fmap; intros r1 r2 H1 H2.
    + apply hamming_swap12; auto.
    + apply hamming_swap23; auto.
  - revert HM. unfold pred_matrix.
    case_bool_decide as Hlen; [discriminate|]. intros [= <-].
    rewrite !bool_decide_eq_false_2; [done| |];
      intros [H1 H2]; apply Hlen; split; congruence.
Qed.

(** C2: the diversity score of the code at three learners that agree on
    every held-out instance.  The learners predict 0 for the first instance
    and 1 for the second; the score of the code is 1/2, the mean pairwise
    disagreement between the learners is 0.  The other way round, three
    learners that disagree on every instance but predict the same for all
    instances get the score 0. *)
Theorem C2_diversity_compares_instances :
  (exists q, disagreements [0; 1] [0; 1] [0; 1] = Ok q /\ (q == 1 # 2)%Q)
  /\ Qeq (spec_learner_disagreement [0; 1] [0; 1] [0; 1]) 0%Q
  /\ (exists q, disagreements [0; 0] [1; 1] [0; 0] = Ok q /\ (q == 0)%Q)
  /\ Qeq (spec_learner_disagreement [0; 0] [1; 1] [0; 0]) (2 # 3)%Q.
Proof.
  split; [|split; [|split]].
  - eexists. split; [vm_compute; reflexivity|]. reflexivity.
  - reflexivity.
  - eexists. split; [vm_compute; reflexivity|]. reflexivity.
  - reflexivity.
Qed.

(** ** Examples *)

(** Without a seed the sample depends on the process-wide generator. *)
Example sample_unseeded_depends_on_generator :
  outcome (@sample nat rotating_generator (1 # 2) None
             [("num", Int64 [0; 1; 0; 1])] 0%nat)
  ≠ outcome (@sample nat rotating_generator (1 # 2) None
               [("num", Int64 [0; 1; 0; 1])] 1%nat).
Proof. vm_compute. discriminate. Qed.

(** The scenario of the specification: outcome values 0,1,2,1 and 0,0,1,2
    are binarised to 0,1,1,1,0,0,1,1. *)
Example combine_scenario :
  (combined ← combine [("Age", Int64 [63; 41; 50; 58]); ("num", Int64 [0; 1; 2; 1])]
                      [("Age", Int64 [44; 39; 61; 57]); ("num", Int64 [0; 0; 1; 2])];
   getitem "num" combined)
  = Ok (Int64 [0; 1; 1; 1; 0; 0; 1; 1]).
Proof. reflexivity. Qed.

(** ** The grid search and the standalone base learners *)

Lemma argmax_from_lt (scores : list Q) (best_i i : nat) (best : Q) :
  (best_i < i)%nat -> (argmax_from best_i best i scores < i + length scores)%nat.
Proof.
  revert best_i i best. induction scores as [|x rest IH]; intros best_i i best Hi; simpl.
  - lia.
  - destruct (Qgt_bool x best).
    + specialize (IH i (S i) x). lia.
    + specialize (IH best_i (S i) best). lia.
Qed.

Lemma argmax_lt (scores : list Q) :
  scores ≠ [] -> (argmax scores < length scores)%nat.
Proof.
  destruct scores as [|x rest]; [done|]. intros _. simpl.
  pose proof (argmax_from_lt rest 0 1 x). lia.
Qed.

Lemma run_bind_Ok {S A B} (m : Run S A) (k : A -> Run S B) (h h' : S) (a : A) :
  m h = Ok (a, h') -> (m ≫= k) h = k a h'.
Proof. intros Hm. unfold mbind, Run_bind. by rewrite Hm. Qed.

Section GridSearchFrame.
Import Estimators.
Context {Data Features Model : Type}.
Variable fit_model : family -> gmap string value -> Data -> Model.
Variable predict_model : Model -> Features -> list Z.
Variable meta_data : list (family * gmap string value) -> Z -> Data -> Data.
Variable train_fold test_fold : Z -> nat -> Data -> Data.
Variable roc_auc : list Model -> Model -> Data -> Q.
Variable train : Data.
Variable X_test : Features.

#[local] Abbreviation run_candidates :=
  (candidates_run fit_model meta_data train_fold test_fold roc_auc train).
#[local] Abbreviation evaluated :=
  (store_evaluated fit_model meta_data train_fold test_fold roc_auc train).
#[local] Abbreviation predictions := (default_predictions fit_model predict_model train X_test).

Lemma construct_Ok : construct [] = Ok (handles, @store_constructed Model).
Proof. vm_compute. reflexivity. Qed.

Lemma load_grid_search :
  load 5 (@store_constructed Model)
  = Ok (GridSearchCV 4 param_grid 5 None, store_constructed).
Proof. vm_compute. reflexivity. Qed.

Lemma clone_stacking_model :
  clone 4 (@store_constructed Model) = Ok (10%nat, store_cloned).
Proof. vm_compute. reflexivity. Qed.

Lemma grid_search_fit_unfold (gs : nat) (data : Data) (h : list object)
    estimator grid cv best :
  load gs h = Ok (GridSearchCV estimator grid cv best, h) ->
  grid_search_fit fit_model meta_data train_fold test_fold roc_auc gs data h
  = (base ← clone estimator;
     scores ← evaluate_candidates fit_model meta_data train_fold test_fold roc_auc
                base cv data (ParameterGrid grid);
     refit fit_model meta_data gs base data (ParameterGrid grid !! argmax scores)
       (default 0%Q (scores !! argmax scores))) h.
Proof.
  intros Hload. unfold grid_search_fit.
  by rewrite (run_bind_Ok _ _ _ _ _ Hload).
Qed.

(** Every candidate of the grid is evaluated: the evaluation returns, with
    one score per candidate. *)
Lemma candidates_run_Ok :
  exists scores,
    evaluate_candidates fit_model meta_data train_fold test_fold roc_auc
      10 5 train (ParameterGrid param_grid) store_cloned
    = Ok (scores, evaluated)
    /\ length scores = 32%nat.
Proof.
  change (evaluate_candidates fit_model meta_data train_fold test_fold roc_auc
            10 5 train (ParameterGrid param_grid) store_cloned)
    with run_candidates.
  unfold store_evaluated.
  assert (Hlen : length (default [] (result_to_option (outcome run_candidates))) = 32%nat)
    by (vm_compute; reflexivity).
  destruct run_candidates as [[scores h]|e]; [|discriminate].
  by exists scores.
Qed.

(** For each of the 32 candidates, by evaluation. *)
Lemma refit_then_predict_all (s : Q) :
  refit_then_predict_each fit_model predict_model meta_data train X_test s evaluated
  = replicate 32 (Some (constructed_learners, Ok predictions)).
Proof.
  vm_cast_no_check (eq_refl (replicate 32 (Some (@constructed_learners Model, Ok predictions)))).
Qed.

(** Whichever candidate the search selects, the refit succeeds and leaves the
    three base learners as they were constructed, and the base learners then
    predict with their constructor parameters. *)
Lemma after_refit_frame (i : nat) (s : Q) :
  (i < 32)%nat ->
  exists h,
    after_refit fit_model meta_data train_fold test_fold roc_auc train i s = Ok ((), h)
    /\ take 3 h = constructed_learners
    /\ outcome (base_predictions fit_model predict_model meta_data
                  handles train X_test h) = Ok predictions.
Proof.
  intros Hi.
  assert (Hcase : refit_then_predict fit_model predict_model meta_data train X_test
                    s evaluated i
                  = Some (constructed_learners, Ok predictions)).
  { pose proof (f_equal (fun l => l !! i) (refit_then_predict_all s)) as Hall.
    cbv beta in Hall. unfold refit_then_predict_each in Hall.
    rewrite list_lookup_fmap, lookup_seq_lt in Hall by done.
    rewrite lookup_replicate_2 in Hall by done. by injection Hall. }
  unfold refit_then_predict in Hcase. unfold after_refit.
  destruct (refit _ _ _ _ _ _ _ _) as [[[] h]|e]; [|discriminate].
  injection Hcase as H3 Hpred. by exists h.
Qed.

(** The run of lines 81-163, assembled from the runs of its steps. *)
Lemma train_and_analyse_steps (h0 h1 h2 h3 : list (@object Model)) (scores : list Q)
    (preds : list Z * list Z * list Z) :
  construct [] = Ok (handles, h0) ->
  load 5 h0 = Ok (GridSearchCV 4 param_grid 5 None, h0) ->
  clone 4 h0 = Ok (10%nat, h1) ->
  evaluate_candidates fit_model meta_data train_fold test_fold roc_auc
    10 5 train (ParameterGrid param_grid) h1 = Ok (scores, h2) ->
  refit fit_model meta_data 5 10 train (ParameterGrid param_grid !! argmax scores)
    (default 0%Q (scores !! argmax scores)) h2 = Ok ((), h3) ->
  outcome (base_predictions fit_model predict_model meta_data handles train X_test h3)
  = Ok preds ->
  (hd ← construct;
   _ ← grid_search_fit fit_model meta_data train_fold test_fold roc_auc
         (grid_search hd) train;
   mret hd) [] = Ok (handles, h3)
  /\ outcome (train_and_analyse fit_model predict_model meta_data train_fold
                test_fold roc_auc train X_test [])
     = disagreements preds.1.1 preds.1.2 preds.2.
Proof.
  intros Hconstruct Hload Hclone Heval Hrefit Hpred.
  assert (Hfit : grid_search_fit fit_model meta_data train_fold test_fold roc_auc
                   5 train h0 = Ok ((), h3)).
  { rewrite (grid_search_fit_unfold 5 train h0 4 param_grid 5 None Hload).
    rewrite (run_bind_Ok _ _ _ _ _ Hclone).
    by rewrite (run_bind_Ok _ _ _ _ _ Heval). }
  split.
  - rewrite (run_bind_Ok _ _ _ _ _ Hconstruct).
    change (grid_search handles) with 5%nat.
    by rewrite (run_bind_Ok _ _ _ _ _ Hfit).
  - unfold train_and_analyse.
    rewrite (run_bind_Ok _ _ _ _ _ Hconstruct).
    change (grid_search handles) with 5%nat.
    rewrite (run_bind_Ok _ _ _ _ _ Hfit).
    unfold diversity_analysis, mbind, Run_bind.
    revert Hpred. unfold outcome.
    destruct (base_predictions _ _ _ _ _ _ _) as [[preds' h4]|e]; [|discriminate].
    intros [= ->]. unfold lift.
    by destruct (disagreements _ _ _).
Qed.

(** C10: the grid search works on clones.  Whatever the scores of the
    candidates (and so whichever candidate is selected), after
    [grid_search.fit] the three standalone base learners are still the
    unfitted objects their constructors made, with the constructor
    parameters; the whole run returns, and its diversity score is the one
    computed from learners fitted with those constructor parameters, an
    expression in which the search does not occur. *)
Theorem C10_grid_search_leaves_base_learners :
  (exists hd h,
     (hd ← construct;
      _ ← grid_search_fit fit_model meta_data train_fold test_fold roc_auc
            (grid_search hd) train;
      mret hd) [] = Ok (hd, h)
     /\ h !! knn hd = Some (Estimator KNeighborsClassifier knn_params None)
     /\ h !! svm hd = Some (Estimator SVC svm_params None)
     /\ h !! dt hd = Some (Estimator DecisionTreeClassifier dt_params None))
  /\ outcome (train_and_analyse fit_model predict_model meta_data train_fold
                test_fold roc_auc train X_test [])
     = default_diversity fit_model predict_model train X_test.
Proof.
  destruct candidates_run_Ok as (scores & Hrun & Hlen).
  destruct (after_refit_frame (argmax scores) (default 0%Q (scores !! argmax scores)))
    as (h & Hrefit & Htake & Hpred).
  { rewrite <- Hlen. apply argmax_lt. by destruct scores. }
  pose proof (train_and_analyse_steps store_constructed store_cloned evaluated
                h scores predictions construct_Ok load_grid_search
                clone_stacking_model Hrun Hrefit Hpred) as [Hsearch Hscore].
  split.
  - exists handles, h. split; [exact Hsearch|].
    assert (Hl : forall l, (l < 3)%nat -> h !! l = constructed_learners !! l).
    { intros l Hl. rewrite <- Htake. by rewrite lookup_take_lt. }
    repeat split; (rewrite Hl; [reflexivity | simpl; lia]).
  - exact Hscore.
Qed.
End GridSearchFrame.

(** * Further properties of the pipeline *)

(** ** More on the cleaning block (lines 26-33) *)

Lemma series_len_to_floats (t : Series) : length (to_floats t) = series_len t.
Proof. destruct t; simpl; [apply length_fmap|done]. Qed.

Lemma series_len_to_numeric parse (s : RawSeries) :
  series_len (to_numeric parse s) = raw_len s.
Proof.
  destruct s as [xs|xs|xs]; simpl; try done.
  destruct (mapM as_int _) as [zs|] eqn:E; simpl.
  - apply length_mapM in E. by rewrite length_fmap in E.
  - by rewrite !length_fmap.
Qed.

Lemma raw_len_replace (s : RawSeries) : raw_len (replace s) = raw_len s.
Proof. destruct s; simpl; try done. apply length_fmap. Qed.

Lemma series_len_fillna (m : option Q) (t : Series) :
  series_len (fillna m t) = series_len t.
Proof. destruct t; simpl; [done|apply length_fmap]. Qed.

(** X1: cleaning leaves no missing cell in a column that has a value.  When
    the column, once sentinels are replaced and text is coerced, holds at
    least one value, the cleaned column has as many cells as the loaded one
    and none of them is missing. *)
Theorem clean_series_no_missing (parse : string -> option number) (s : RawSeries) :
  present (to_numeric parse (replace s)) ≠ [] ->
  series_len (clean_series parse s) = raw_len s
  /\ Forall is_Some (to_floats (clean_series parse s)).
Proof.
  unfold clean_series. set (t := to_numeric parse (replace s)). intros Hne. split.
  - rewrite series_len_fillna. unfold t.
    by rewrite series_len_to_numeric, raw_len_replace.
  - rewrite to_floats_fillna. unfold mean.
    destruct (present t) as [|x xs] eqn:Hp; [done|]. simpl.
    apply Forall_fmap, Forall_true. intros [v|]; simpl; eauto.
Qed.

Lemma clean_series_no_missing_witness :
  series_len (clean_series parse_decimal (RawObject [Some "3"; Some "?"; Some "1"])) = 3%nat
  /\ Forall is_Some
       (to_floats (clean_series parse_decimal (RawObject [Some "3"; Some "?"; Some "1"]))).
Proof.
  apply (clean_series_no_missing parse_decimal (RawObject [Some "3"; Some "?"; Some "1"])).
  vm_compute. discriminate.
Defined.

(** X2: a column without any value stays missing.  When no cell of the
    column holds a value once sentinels are replaced and text is coerced, the
    mean is undefined, and every cell of the cleaned column is still
    missing: imputation neither fails nor puts a default in. *)
Theorem clean_series_all_missing (parse : string -> option number) (s : RawSeries) :
  present (to_numeric parse (replace s)) = [] ->
  series_len (clean_series parse s) = raw_len s
  /\ Forall (fun c => c = None) (to_floats (clean_series parse s)).
Proof.
  unfold clean_series. set (t := to_numeric parse (replace s)). intros Hnil. split.
  - rewrite series_len_fillna. unfold t.
    by rewrite series_len_to_numeric, raw_len_replace.
  - rewrite to_floats_fillna. unfold mean. rewrite Hnil. simpl.
    apply Forall_fmap. unfold present in Hnil.
    induction (to_floats t) as [|[v|] cs IH]; [constructor|discriminate|].
    constructor; [done|]. apply IH. exact Hnil.
Qed.

Lemma clean_series_all_missing_witness :
  series_len (clean_series parse_decimal (RawObject [Some "?"; None; Some "x"])) = 3%nat
  /\ Forall (fun c => c = None)
       (to_floats (clean_series parse_decimal (RawObject [Some "?"; None; Some "x"]))).
Proof.
  apply (clean_series_all_missing parse_decimal (RawObject [Some "?"; None; Some "x"])).
  reflexivity.
Defined.
Lemma Qmean_Some (xs : list Q) (m : Q) :
  Qmean xs = Some m ->
  xs ≠ [] /\ m = (Qsum xs / inject_Z (Z.of_nat (length xs)))%Q.
Proof. destruct xs; [discriminate|]. intros [= <-]. done. Qed.


Lemma inject_nat_pos (n : nat) : (0 < n)%nat -> (0 < inject_Z (Z.of_nat n))%Q.
Proof. intros Hn. change 0%Q with (inject_Z 0). rewrite <- Zlt_Qlt. lia. Qed.

(** ** More on renaming (lines 36-57) *)

Lemma feature_mapping_values (name v : string) :
  feature_mapping !! name = Some v -> v ∈ canonical_columns.
Proof.
  unfold feature_mapping. intros Hl. apply elem_of_list_to_map_2 in Hl.
  repeat (apply elem_of_cons in Hl as [[= -> ->]|Hl];
          [apply (bool_decide_unpack _); vm_compute; exact I|]).
  by apply elem_of_nil in Hl.
Qed.

Lemma feature_mapping_canonical (v : string) :
  v ∈ canonical_columns -> rename_label feature_mapping v = v.
Proof.
  intros Hv. unfold canonical_columns in Hv.
  repeat (apply elem_of_cons in Hv as [->|Hv]; [reflexivity|]).
  by apply elem_of_nil in Hv.
Qed.

(** X5: renaming twice is renaming once.  No target of the rename table is a
    source that maps elsewhere, so applying the table again to a renamed
    table changes nothing. *)
Theorem rename_feature_mapping_idempotent {A} (df : DataFrame A) :
  rename feature_mapping (rename feature_mapping df) = rename feature_mapping df.
Proof.
  unfold rename. rewrite <- list_fmap_compose. apply list_fmap_ext.
  intros _ [name s] _. simpl. f_equal.
  destruct (feature_mapping !! name) as [v|] eqn:E.
  - assert (Hv : rename_label feature_mapping name = v)
      by (unfold rename_label; by rewrite E).
    rewrite Hv. apply feature_mapping_canonical. by apply feature_mapping_values in E.
  - assert (Hn : rename_label feature_mapping name = name)
      by (unfold rename_label; by rewrite E).
    by rewrite !Hn.
Qed.

(** X6: the identifier column never survives harmonisation.  Whatever the
    second table looks like, the harmonised table has no column labelled
    [patientid], and it has one column for each loaded column with another
    label, in the same order and with the cleaned cells. *)
Theorem harmonize_india_drops_patientid (parse : string -> option number)
    (india_df : DataFrame RawSeries) :
  ("patientid" ∉ columns (harmonize_india parse india_df))
  /\ (snd <$> harmonize_india parse india_df)
     = (snd <$> clean parse (filter (fun c => c.1 ≠ "patientid") india_df)).
Proof.
  unfold harmonize_india.
  assert (Hfilter : forall df : DataFrame RawSeries,
             drop_columns "patientid" (clean parse df)
             = clean parse (filter (fun c => c.1 ≠ "patientid") df)).
  { intros df. unfold drop_columns, clean. induction df as [|[n s] df IH]; [done|].
    rewrite fmap_cons, !filter_cons. cbn [fst prod_map id].
    destruct (decide (n ≠ "patientid")); [rewrite fmap_cons; f_equal|]; exact IH. }
  assert (Hdrop : (if bool_decide ("patientid" ∈ columns (clean parse india_df))
                   then drop_columns "patientid" (clean parse india_df)
                   else clean parse india_df)
                  = drop_columns "patientid" (clean parse india_df)).
  { case_bool_decide as Hin; [done|]. unfold drop_columns, columns in *.
    induction (clean parse india_df) as [|[n s] df IH]; [done|].
    rewrite filter_cons. cbn [fst]. rewrite fmap_cons in Hin. cbn [fst] in Hin.
    apply not_elem_of_cons in Hin as [Hn Hin].
    destruct (decide (n ≠ "patientid")) as [Hd|Hd];
      [|exfalso; apply Hd; intros ->; by apply Hn].
    f_equal. by apply IH. }
  rewrite Hdrop, Hfilter. split.
  - rewrite columns_rename, columns_clean.
    intros Hin. apply list_elem_of_fmap in Hin as (n & Hn & Hin).
    unfold columns in Hin. apply list_elem_of_fmap in Hin as ([n' s] & -> & Hin).
    apply list_elem_of_filter in Hin as [Hne _]. simpl in *.
    unfold rename_label in Hn. destruct (feature_mapping !! n') as [v|] eqn:E; simpl in Hn.
    + apply feature_mapping_values in E. subst v. revert E.
      apply (bool_decide_unpack _). vm_compute. exact I.
    + congruence.
  - unfold rename. rewrite <- list_fmap_compose. apply list_fmap_ext. by intros _ [] _.
Qed.
(** ** More on the label binariser (lines 60-61) *)

Lemma select_length_columns {A} (name : string) (df : DataFrame A) :
  length (select name df) = length (filter (fun l => l = name) (columns df)).
Proof.
  unfold select, columns. rewrite length_fmap.
  induction df as [|[n s] df IH]; [done|].
  rewrite fmap_cons, !filter_cons. cbn [fst].
  destruct (decide (n = name)); simpl; by rewrite IH.
Qed.

Lemma binarize_num_several (df : DataFrame Series) :
  (2 <= length (filter (fun l => l = "num") (columns df)))%nat ->
  binarize_num df = Raise ValueError.
Proof.
  rewrite <- select_length_columns. unfold binarize_num.
  destruct (select "num" df) as [|s [|s' rest]]; simpl; [lia|lia|done].
Qed.

Lemma binarize_int_idempotent (x : Z) : binarize_int (binarize_int x) = binarize_int x.
Proof. unfold binarize_int. by destruct (x >? 0)%Z. Qed.

Lemma apply_binarize_idempotent (s : Series) :
  apply_binarize (Int64 (apply_binarize s)) = apply_binarize s.
Proof.
  simpl. destruct s as [xs|xs]; simpl; rewrite <- list_fmap_compose;
    apply list_fmap_ext; intros _ x _; simpl.
  - apply binarize_int_idempotent.
  - destruct (binarize_float_01 x) as [-> | ->]; reflexivity.
Qed.

(** X8: binarising twice is binarising once.  When the binariser returns,
    running it again on its result returns that same table. *)
Theorem binarize_num_idempotent (df df' : DataFrame Series) :
  binarize_num df = Ok df' -> binarize_num df' = Ok df'.
Proof.
  intros Hb. destruct (binarize_num_Ok _ _ Hb) as (s & Hs & Hs' & _).
  revert Hb Hs'. unfold binarize_num, getitem.
  destruct (select "num" df) as [|s0 [|]]; try discriminate. intros [= <-].
  set (f := fun c : string * Series =>
              if bool_decide (c.1 = "num") then (c.1, Int64 (apply_binarize c.2)) else c).
  destruct (select "num" (f <$> df)) as [|s1 [|]]; try discriminate. intros _.
  f_equal. rewrite <- list_fmap_compose. apply list_fmap_ext.
  intros _ [n c] _. unfold compose, f. cbn [fst snd].
  destruct (bool_decide (n = "num")) eqn:E; cbn [fst snd]; rewrite E; [|done].
  f_equal. f_equal. apply apply_binarize_idempotent.
Qed.

Lemma binarize_num_idempotent_witness :
  binarize_num [("Age", Int64 [63; 41]); ("num", Int64 [0; 1])]
  = Ok [("Age", Int64 [63; 41]); ("num", Int64 [0; 1])].
Proof.
  apply (binarize_num_idempotent [("Age", Int64 [63; 41]); ("num", Float64 [None; Some (3 # 1)])]).
  reflexivity.
Defined.

Lemma filter_fmap_two {A} (f : A -> string) (z : string) (x y : A) (l : list A) :
  x ∈ l -> y ∈ l -> x ≠ y -> f x = z -> f y = z ->
  (2 <= length (filter (fun n => n = z) (f <$> l)))%nat.
Proof.
  intros Hx Hy Hne Hfx Hfy.
  induction l as [|a l IH]; [by apply elem_of_nil in Hx|].
  rewrite fmap_cons, filter_cons.
  apply elem_of_cons in Hx as [->|Hx]; apply elem_of_cons in Hy as [->|Hy].
  - done.
  - rewrite decide_True by done. simpl.
    assert (Hin : z ∈ filter (fun n => n = z) (f <$> l)).
    { apply list_elem_of_filter. split; [done|]. rewrite <- Hfy. by apply list_elem_of_fmap_2. }
    destruct (filter _ _); [by apply elem_of_nil in Hin|simpl; lia].
  - rewrite decide_True by done. simpl.
    assert (Hin : z ∈ filter (fun n => n = z) (f <$> l)).
    { apply list_elem_of_filter. split; [done|]. rewrite <- Hfx. by apply list_elem_of_fmap_2. }
    destruct (filter _ _); [by apply elem_of_nil in Hin|simpl; lia].
  - specialize (IH Hx Hy). destruct (decide (f a = z)); simpl; lia.
Qed.

(** X9: a second table with both a [target] and a [num] column.  When the
    table has at least one row, renaming maps both labels to [num]; the
    harmonised table then has two columns so labelled and binarising it
    raises [ValueError]. *)
Theorem harmonize_india_duplicate_num (parse : string -> option number)
    (india_df : DataFrame RawSeries) :
  Forall (fun c => (0 < raw_len c.2)%nat) india_df ->
  "target" ∈ columns india_df -> "num" ∈ columns india_df ->
  binarize_num (harmonize_india parse india_df) = Raise ValueError.
Proof.
  intros _ Ht Hn. apply binarize_num_several.
  assert (Hcols : columns (harmonize_india parse india_df)
                  = rename_label feature_mapping
                      <$> filter (fun n => n ≠ "patientid") (columns india_df)).
  { unfold harmonize_india. case_bool_decide as Hin.
    - by rewrite columns_rename, columns_drop_columns, columns_clean.
    - rewrite columns_rename, columns_clean. f_equal.
      rewrite columns_clean in Hin. clear -Hin.
      induction (columns india_df) as [|a l IH]; [done|].
      apply not_elem_of_cons in Hin as [Ha Hin]. rewrite filter_cons.
      rewrite decide_True by congruence. f_equal. by apply IH. }
  rewrite Hcols.
  apply (filter_fmap_two (rename_label feature_mapping) "num" "target" "num");
    try done; by apply list_elem_of_filter.
Qed.

Lemma harmonize_india_duplicate_num_witness :
  binarize_num (harmonize_india parse_decimal
                  [("target", RawInt [1; 0]); ("num", RawInt [0; 2])])
  = Raise ValueError.
Proof.
  apply (harmonize_india_duplicate_num parse_decimal
           [("target", RawInt [1; 0]); ("num", RawInt [0; 2])]);
    apply (bool_decide_unpack _); vm_compute; exact I.
Defined.
(** ** More on concatenation (line 64) *)

Lemma series_len_append (x y : Series) :
  series_len (append_series x y) = (series_len x + series_len y)%nat.
Proof.
  destruct x, y; simpl; rewrite ?length_app, ?length_fmap; done.
Qed.

Lemma series_len_column_or_nan (name : string) (df : DataFrame Series) :
  rectangular df (nrows df) -> series_len (column_or_nan name df) = nrows df.
Proof.
  intros Hrect. unfold column_or_nan.
  destruct (select name df) as [|s rest] eqn:Hsel; simpl; [apply length_replicate|].
  assert (Hin : s ∈ select name df) by (rewrite Hsel; left).
  unfold select in Hin. apply list_elem_of_fmap in Hin as ([n s'] & -> & Hin).
  apply list_elem_of_filter in Hin as [_ Hin].
  unfold rectangular in Hrect. rewrite Forall_forall in Hrect. by apply (Hrect _ Hin).
Qed.

Lemma zip_with_append_rectangular (a b : DataFrame Series) (na nb : nat) :
  rectangular a na -> rectangular b nb ->
  rectangular (zip_with (fun ca cb => (ca.1, append_series ca.2 cb.2)) a b) (na + nb).
Proof.
  unfold rectangular. intros Ha. revert b.
  induction Ha as [|[n s] a Hs Ha IH]; intros [|[m t] b] Hb; simpl; try constructor.
  - apply Forall_cons in Hb as [Ht Hb]. simpl in *. by rewrite series_len_append, Hs, Ht.
  - apply Forall_cons in Hb as [Ht Hb]. by apply IH.
Qed.

Lemma outer_join_rectangular (a b c : DataFrame Series) :
  rectangular a (nrows a) -> rectangular b (nrows b) ->
  outer_join a b = Ok c ->
  rectangular c (nrows a + nrows b).
Proof.
  intros Ha Hb. unfold outer_join. case_bool_decide as Hcols.
  - intros [= <-]. by apply zip_with_append_rectangular.
  - case_bool_decide; [|discriminate]. intros [= <-].
    unfold rectangular. apply Forall_fmap, Forall_true. intros name. simpl.
    by rewrite series_len_append, !series_len_column_or_nan.
Qed.

(** X10: concatenation stacks the rows.  When each frame is rectangular, the
    combined frame is rectangular too and has as many rows as the two frames
    together, whether or not their labels agree. *)
Theorem concat_rectangular (a b c : DataFrame Series) :
  rectangular a (nrows a) -> rectangular b (nrows b) ->
  concat a b = Ok c ->
  rectangular c (nrows a + nrows b).
Proof.
  intros Ha Hb. destruct a as [|ca a]; [by intros [= <-]|].
  destruct b as [|cb b].
  - intros [= <-]. by rewrite Nat.add_0_r.
  - rewrite concat_nonempty by done. by apply outer_join_rectangular.
Qed.

Lemma concat_rectangular_witness :
  rectangular [("Age", Float64 [Some (63 # 1); None]);
               ("num", Int64 [1; 0]);
               ("age", Float64 [None; Some (52 # 1)])] (1 + 1).
Proof.
  apply (concat_rectangular [("Age", Int64 [63]); ("num", Int64 [1])]
                            [("age", Int64 [52]); ("num", Int64 [0])]).
  - by repeat constructor.
  - by repeat constructor.
  - reflexivity.
Defined.





(** ** More on sampling and splitting (lines 67 and 78) *)

Lemma take_series_len (idx : list nat) (s t : Series) :
  take_series idx s = Some t -> series_len t = length idx.
Proof.
  destruct s as [xs|xs]; simpl; destruct (take_list idx xs) as [ys|] eqn:E;
    simpl; try discriminate; intros [= <-]; simpl; by apply take_list_length in E.
Qed.

Lemma take_frame_shape (idx : list nat) (df df' : DataFrame Series) :
  take_frame idx df = Some df' ->
  columns df' = columns df /\ rectangular df' (length idx).
Proof.
  unfold take_frame, columns, rectangular. revert df'.
  induction df as [|[n s] df IH]; intros df'; simpl.
  - intros [= <-]. split; [done|constructor].
  - destruct (take_series idx s) as [t|] eqn:Et; simpl; [|discriminate].
    destruct (mapM _ df) as [rest|] eqn:Er; simpl; [|discriminate].
    intros [= <-]. destruct (IH rest eq_refl) as [Hc Hr]. split.
    + rewrite !fmap_cons. cbn [fst]. f_equal. exact Hc.
    + constructor; [cbn [snd]; by apply take_series_len in Et|exact Hr].
Qed.

Lemma take_frame_is_Some (idx : list nat) (df : DataFrame Series) (n : nat) :
  rectangular df n -> Forall (fun j => (j < n)%nat) idx ->
  is_Some (take_frame idx df).
Proof.
  intros Hrect Hidx. unfold take_frame. apply mapM_is_Some.
  eapply Forall_impl; [exact Hrect|]. intros [name s] Hs. simpl in *.
  rewrite <- Hs in Hidx. destruct (take_series_is_Some idx s Hidx) as [t ->].
  by eexists.
Qed.

Section SamplingLaws.
Context {G : Type} `{RandomStateLaws G}.

Lemma draw_permutation_perm (random_state : option Z) (n : nat) (g g' : G)
    (p : list nat) :
  draw_permutation random_state n g = Ok (p, g') -> p ≡ₚ seq 0 n.
Proof.
  unfold draw_permutation. destruct random_state as [s|].
  - intros [= <- _]. apply permutation_perm.
  - pose proof (permutation_perm g n) as Hp. destruct (permutation g n) as [p' g''].
    by intros [= <- _].
Qed.

Lemma draw_permutation_Ok (random_state : option Z) (n : nat) (g : G) :
  exists p g', draw_permutation random_state n g = Ok (p, g').
Proof.
  unfold draw_permutation. destruct random_state as [s|]; [by eexists _, _|].
  destruct (permutation g n). by eexists _, _.
Qed.

Lemma sample_in_range (frac : Q) (random_state : option Z) (df : DataFrame Series) :
  (0 <= frac)%Q -> (frac <= 1)%Q ->
  sample frac random_state df
  = (locs ← draw_permutation random_state (nrows df);
     lift (or_raise IndexError
             (take_frame
                (take (Z.to_nat (round_half_even
                                   (frac * inject_Z (Z.of_nat (nrows df))))) locs)
                df))).
Proof.
  intros Hlo Hhi. unfold sample.
  apply Qle_bool_iff in Hlo. apply Qle_bool_iff in Hhi. by rewrite Hlo, Hhi.
Qed.

(** X12: sampling is without replacement and in range.  With a generator
    that draws permutations, sampling a fraction between 0 and 1 of a
    rectangular frame always returns: the sample keeps the labels, and its
    rows are rows of the frame at pairwise different positions, no more than
    the frame has. *)
Theorem sample_without_replacement (frac : Q) (random_state : option Z)
    (df : DataFrame Series) (g : G) :
  (0 <= frac)%Q -> (frac <= 1)%Q ->
  rectangular df (nrows df) ->
  exists locs df' g',
    sample frac random_state df g = Ok (df', g')
    /\ NoDup locs
    /\ Forall (fun j => (j < nrows df)%nat) locs
    /\ take_frame locs df = Some df'
    /\ columns df' = columns df
    /\ rectangular df' (length locs).
Proof.
  intros Hlo Hhi Hrect. rewrite sample_in_range by done.
  destruct (draw_permutation_Ok random_state (nrows df) g) as (p & g' & Hdraw).
  pose proof (draw_permutation_perm _ _ _ _ _ Hdraw) as Hperm.
  set (n := Z.to_nat (round_half_even (frac * inject_Z (Z.of_nat (nrows df))))).
  assert (Hnd : NoDup (take n p)).
  { eapply sublist_NoDup; [|apply sublist_take]. rewrite Hperm. apply NoDup_seq. }
  assert (Hrange : Forall (fun j => (j < nrows df)%nat) (take n p)).
  { apply Forall_take. rewrite Hperm. apply Forall_forall.
    intros j Hj%elem_of_seq. lia. }
  destruct (take_frame_is_Some (take n p) df (nrows df) Hrect Hrange) as [df' Hdf'].
  exists (take n p), df', g'.
  rewrite (run_bind_Ok _ _ _ _ _ Hdraw). rewrite Hdf'. simpl.
  destruct (take_frame_shape _ _ _ Hdf') as [Hc Hr]. done.
Qed.
End SamplingLaws.

Lemma sample_without_replacement_witness :
  exists locs df' g',
    @sample nat rotating_generator (1 # 2) (Some 42)
      four_rows 0%nat = Ok (df', g')
    /\ NoDup locs
    /\ Forall (fun j => (j < nrows four_rows)%nat) locs
    /\ take_frame locs four_rows = Some df'
    /\ columns df' = columns four_rows
    /\ rectangular df' (length locs).
Proof.
  apply (@sample_without_replacement nat rotating_generator rotating_generator_laws).
  - vm_compute. discriminate.
  - vm_compute. discriminate.
  - by repeat constructor.
Defined.
Lemma Qceiling_pos (q : Q) : (0 < q)%Q -> (1 <= Qceiling q)%Z.
Proof.
  intros Hq. pose proof (Qle_ceiling q) as Hc.
  assert (Hlt : (inject_Z 0 < inject_Z (Qceiling q))%Q).
  { change (inject_Z 0) with 0%Q. lra. }
  rewrite <- Zlt_Qlt in Hlt. lia.
Qed.

Section SplitLaws.
Context {G : Type} `{RandomStateLaws G}.

Lemma split_indices_Ok (n : nat) (test_size : Q) (random_state : option Z)
    (g g' : G) (train test : list nat) :
  split_indices n test_size random_state g = Ok ((train, test), g') ->
  exists p,
    p ≡ₚ seq 0 n
    /\ (n - Z.to_nat (Qceiling (test_size * inject_Z (Z.of_nat n))) ≠ 0)%nat
    /\ test = take (Z.to_nat (Qceiling (test_size * inject_Z (Z.of_nat n)))) p
    /\ train = take (n - Z.to_nat (Qceiling (test_size * inject_Z (Z.of_nat n))))
                 (drop (Z.to_nat (Qceiling (test_size * inject_Z (Z.of_nat n)))) p).
Proof.
  unfold split_indices. case_bool_decide as Hn; [discriminate|].
  unfold mbind, Run_bind, mret, Run_ret.
  destruct (draw_permutation random_state n g) as [[p g1]|e] eqn:Hdraw; [|discriminate].
  intros [= <- <- <-]. exists p. split; [|done].
  by eapply draw_permutation_perm.
Qed.

(** X13: the split is a partition that keeps rows and labels together.  For
    a test fraction strictly between 0 and 1 and a generator that draws
    permutations, when [train_test_split] returns, there are two lists of row
    positions, neither empty, which together are every row position exactly
    once, such that the training features and labels are the rows at the
    first list and the test features and labels the rows at the second. *)
Theorem train_test_split_partition (X : Matrix) (y : Series) (test_size : Q)
    (random_state : option Z) (g g' : G) (Xtr Xte : Matrix) (ytr yte : Series) :
  (0 < test_size)%Q -> (test_size < 1)%Q ->
  train_test_split X y test_size random_state g = Ok ((Xtr, Xte, ytr, yte), g') ->
  exists train test,
    train ++ test ≡ₚ seq 0 (matrix_nrows X)
    /\ train ≠ [] /\ test ≠ []
    /\ take_matrix train X = Some Xtr /\ take_matrix test X = Some Xte
    /\ take_series train y = Some ytr /\ take_series test y = Some yte.
Proof.
  intros Hts0 Hts1. unfold train_test_split. case_bool_decide as Hlen; [|discriminate].
  unfold mbind at 1, Run_bind.
  destruct (split_indices _ _ _ g) as [[[train test] g1]|e] eqn:Hsplit; [|discriminate].
  unfold mbind, Run_bind, lift, mret, Run_ret.
  destruct (take_matrix train X) as [Xtr'|] eqn:E1; simpl; [|discriminate].
  destruct (take_matrix test X) as [Xte'|] eqn:E2; simpl; [|discriminate].
  destruct (take_series train y) as [ytr'|] eqn:E3; simpl; [|discriminate].
  destruct (take_series test y) as [yte'|] eqn:E4; simpl; [|discriminate].
  intros [= <- <- <- <- <-]. exists train, test.
  destruct (split_indices_Ok _ _ _ _ _ _ _ Hsplit) as (p & Hperm & Hn & -> & ->).
  set (n := matrix_nrows X) in *.
  set (k := Z.to_nat (Qceiling (test_size * inject_Z (Z.of_nat n)))) in *.
  assert (Hp : length p = n) by (rewrite Hperm; apply length_seq).
  assert (Hk : (1 <= k)%nat).
  { unfold k. assert (Hpos : (0 < test_size * inject_Z (Z.of_nat n))%Q).
    { apply Qmult_lt_0_compat; [done|]. apply inject_nat_pos. lia. }
    apply Qceiling_pos in Hpos. lia. }
  repeat split; try done.
  - rewrite take_ge by (rewrite length_drop; lia).
    rewrite Permutation_app_comm, take_drop. exact Hperm.
  - intros Hnil. apply (f_equal length) in Hnil.
    rewrite length_take, length_drop in Hnil. simpl in Hnil. lia.
  - intros Hnil. apply (f_equal length) in Hnil.
    rewrite length_take in Hnil. simpl in Hnil. lia.
Qed.
End SplitLaws.

Lemma train_test_split_partition_witness :
  exists train test,
    train ++ test ≡ₚ seq 0 (matrix_nrows [[Some (1 # 1); Some (2 # 1); Some (3 # 1); Some (4 # 1); Some (5 # 1)]])
    /\ train ≠ [] /\ test ≠ []
    /\ take_matrix train [[Some (1 # 1); Some (2 # 1); Some (3 # 1); Some (4 # 1); Some (5 # 1)]]
       = Some [[Some (4 # 1); Some (5 # 1); Some (1 # 1); Some (2 # 1)]]
    /\ take_matrix test [[Some (1 # 1); Some (2 # 1); Some (3 # 1); Some (4 # 1); Some (5 # 1)]]
       = Some [[Some (3 # 1)]]
    /\ take_series train (Int64 [0; 1; 0; 1; 1]) = Some (Int64 [1; 1; 0; 1])
    /\ take_series test (Int64 [0; 1; 0; 1; 1]) = Some (Int64 [0]).
Proof.
  apply (@train_test_split_partition nat rotating_generator rotating_generator_laws
           [[Some (1 # 1); Some (2 # 1); Some (3 # 1); Some (4 # 1); Some (5 # 1)]]
           (Int64 [0; 1; 0; 1; 1]) (2 # 10) (Some 42) 0%nat 0%nat).
  - reflexivity.
  - reflexivity.
  - vm_compute. reflexivity.
Defined.
Lemma sample_size_small (N : nat) :
  (N <= 14)%nat ->
  (Z.to_nat (round_half_even ((1 # 10) * inject_Z (Z.of_nat N))) <= 1)%nat.
Proof.
  intros HN. do 15 (destruct N as [|N]; [vm_compute; lia|]). lia.
Qed.

Lemma rectangular_drop_columns (name : string) (df : DataFrame Series) (n : nat) :
  rectangular df n -> rectangular (drop_columns name df) n.
Proof.
  unfold rectangular, drop_columns. rewrite !Forall_forall.
  intros Hall c Hc. apply list_elem_of_filter in Hc as [_ Hc]. by apply Hall.
Qed.

Lemma matrix_nrows_features (X : DataFrame Series) (n : nat) :
  rectangular X n -> length X ≠ 0%nat -> matrix_nrows (to_floats <$> X.*2) = n.
Proof.
  destruct X as [|[name s] X]; [done|]. intros Hrect _.
  apply Forall_cons in Hrect as [Hs _]. simpl in *. by rewrite series_len_to_floats.
Qed.

Section SmallInputs.
Context {G : Type} `{RandomStateLaws G}.
Variable sqrt : Q -> Q.

Lemma scale_split_one_row (X : Matrix) (y : Series) (g : G) :
  (matrix_nrows X <= 1)%nat -> scale_split sqrt X y g = Raise ValueError.
Proof.
  intros Hrows. unfold scale_split, fit_transform, fit.
  case_bool_decide as Hempty; [done|].
  unfold mbind at 1, Run_bind, lift. simpl.
  unfold train_test_split. rewrite matrix_nrows_transform.
  case_bool_decide as Hlen; [|done].
  assert (Hone : matrix_nrows X = 1%nat) by lia. rewrite Hone.
  unfold split_indices.
  change (Z.to_nat (Qceiling ((2 # 10) * inject_Z (Z.of_nat 1)))) with 1%nat.
  reflexivity.
Qed.

(** X14: the script needs fifteen rows.  With a generator that draws
    permutations, when the combined data is rectangular, has a column
    labelled [num] and has at most 14 rows, the run of lines 67-78 raises
    [ValueError]: a tenth of the rows rounds to no row or to one row, the
    scaler rejects a sample without rows and the split rejects a single row,
    whose training part would be empty. *)
Theorem sample_scale_split_small (combined_data : DataFrame Series) (g : G) :
  rectangular combined_data (nrows combined_data) ->
  "num" ∈ columns combined_data ->
  (nrows combined_data <= 14)%nat ->
  sample_scale_split sqrt combined_data g = Raise ValueError.
Proof.
  intros Hrect Hnum Hrows. unfold sample_scale_split.
  unfold mbind at 1, Run_bind.
  rewrite sample_in_range by (vm_compute; discriminate).
  destruct (draw_permutation_Ok (Some 42) (nrows combined_data) g) as (p & g' & Hdraw).
  pose proof (draw_permutation_perm _ _ _ _ _ Hdraw) as Hperm.
  rewrite (run_bind_Ok _ _ _ _ _ Hdraw).
  set (n := Z.to_nat (round_half_even ((1 # 10) * inject_Z (Z.of_nat (nrows combined_data))))).
  assert (Hn : (n <= 1)%nat) by by apply sample_size_small.
  assert (Hrange : Forall (fun j => (j < nrows combined_data)%nat) (take n p)).
  { apply Forall_take. rewrite Hperm. apply Forall_forall.
    intros j Hj%elem_of_seq. lia. }
  destruct (take_frame_is_Some (take n p) _ _ Hrect Hrange) as [sampled Hsampled].
  rewrite Hsampled. simpl.
  destruct (take_frame_shape _ _ _ Hsampled) as [Hcols Hshape].
  assert (Hlen : (length (take n p) <= 1)%nat) by (rewrite length_take; lia).
  unfold mbind at 1, Run_bind, lift, drop_checked.
  rewrite bool_decide_eq_true_2 by by rewrite Hcols.
  unfold mbind at 1, Run_bind.
  destruct (getitem "num" sampled) as [y|e] eqn:Hy.
  2:{ revert Hy. unfold getitem.
      destruct (select "num" sampled) as [|s [|]] eqn:Hsel; try discriminate.
      - exfalso. rewrite <- Hcols in Hnum.
        unfold columns in Hnum. apply list_elem_of_fmap in Hnum as ([n0 s0] & Hn0 & Hin).
        assert (Hs0 : s0 ∈ select "num" sampled).
        { unfold select. apply list_elem_of_fmap. exists (n0, s0). split; [done|].
          apply list_elem_of_filter. by split. }
        rewrite Hsel in Hs0. by apply elem_of_nil in Hs0.
      - by intros [= <-]. }
  apply scale_split_one_row.
  set (X := drop_columns "num" sampled).
  destruct (decide (length X = 0%nat)) as [HX|HX].
  - destruct X; [simpl; lia|done].
  - rewrite (matrix_nrows_features X (length (take n p))); [lia| |done].
    by apply rectangular_drop_columns.
Qed.
End SmallInputs.

Lemma sample_scale_split_small_witness :
  @sample_scale_split (fun x => x) nat rotating_generator four_rows 0%nat = Raise ValueError.
Proof.
  apply (@sample_scale_split_small nat rotating_generator rotating_generator_laws).
  - by repeat constructor.
  - apply (bool_decide_unpack _). vm_compute. exact I.
  - vm_compute. lia.
Defined.
(** ** More on the scaler (lines 74-75) *)

Lemma Qsum_cons (x : Q) (xs : list Q) : Qsum (x :: xs) = (x + Qsum xs)%Q.
Proof. reflexivity. Qed.


(** ** The candidates of the search and the one it selects (lines 100-112) *)

Lemma Qgt_bool_false (x y : Q) : Qgt_bool x y = false <-> (x <= y)%Q.
Proof.
  split.
  - intros H. apply Qnot_lt_le. intros Hlt. apply Qgt_bool_spec in Hlt. congruence.
  - intros H. destruct (Qgt_bool x y) eqn:E; [|done].
    apply Qgt_bool_spec in E. lra.
Qed.

Lemma argmax_from_spec (scores pre : list Q) (best_i : nat) (best : Q) :
  pre !! best_i = Some best ->
  (forall j x, pre !! j = Some x -> (x <= best)%Q) ->
  (forall j x, (j < best_i)%nat -> pre !! j = Some x -> (x < best)%Q) ->
  exists b,
    (pre ++ scores) !! argmax_from best_i best (length pre) scores = Some b
    /\ (forall j x, (pre ++ scores) !! j = Some x -> (x <= b)%Q)
    /\ (forall j x, (j < argmax_from best_i best (length pre) scores)%nat ->
                    (pre ++ scores) !! j = Some x -> (x < b)%Q).
Proof.
  revert pre best_i best.
  induction scores as [|x rest IH]; intros pre best_i best Hbest Hle Hlt; simpl.
  - rewrite app_nil_r. eauto.
  - replace (S (length pre)) with (length (pre ++ [x])) by (rewrite length_app; simpl; lia).
    rewrite (cons_middle x pre rest), app_assoc.
    destruct (Qgt_bool x best) eqn:E.
    + apply Qgt_bool_spec in E. apply IH.
      * by rewrite lookup_app_r, Nat.sub_diag.
      * intros j y Hj. apply lookup_app_Some in Hj as [Hj|[_ Hj]].
        -- specialize (Hle _ _ Hj). lra.
        -- apply list_lookup_singleton_Some in Hj as [_ <-]. lra.
      * intros j y Hjlt Hj. rewrite lookup_app_l in Hj by done.
        specialize (Hle _ _ Hj). lra.
    + apply Qgt_bool_false in E. apply IH.
      * apply lookup_app_l_Some. done.
      * intros j y Hj. apply lookup_app_Some in Hj as [Hj|[_ Hj]].
        -- eauto.
        -- by apply list_lookup_singleton_Some in Hj as [_ <-].
      * intros j y Hjlt Hj. apply lookup_lt_Some in Hbest.
        rewrite lookup_app_l in Hj by lia. eauto.
Qed.

(** X18: the search selects the first best candidate.  For every non-empty
    list of mean scores the selected index is in range, no score is greater
    than the selected one, and every earlier score is strictly smaller. *)
Theorem argmax_first_greatest (scores : list Q) :
  scores ≠ [] ->
  exists b,
    scores !! argmax scores = Some b
    /\ (forall j x, scores !! j = Some x -> (x <= b)%Q)
    /\ (forall j x, (j < argmax scores)%nat -> scores !! j = Some x -> (x < b)%Q).
Proof.
  destruct scores as [|x rest]; [done|]. intros _.
  apply (argmax_from_spec rest [x] 0 x).
  - done.
  - intros [|j] y Hj; simplify_eq/=. lra.
  - intros j y Hj. lia.
Qed.

Lemma argmax_first_greatest_witness :
  exists b,
    [1 # 2; 3 # 4; 3 # 4; 1 # 4]%Q !! argmax [1 # 2; 3 # 4; 3 # 4; 1 # 4]%Q = Some b
    /\ (forall j x, [1 # 2; 3 # 4; 3 # 4; 1 # 4]%Q !! j = Some x -> (x <= b)%Q)
    /\ (forall j x, (j < argmax [1 # 2; 3 # 4; 3 # 4; 1 # 4]%Q)%nat ->
                    [1 # 2; 3 # 4; 3 # 4; 1 # 4]%Q !! j = Some x -> (x < b)%Q).
Proof.
  apply (argmax_first_greatest [1 # 2; 3 # 4; 3 # 4; 1 # 4]%Q). discriminate.
Defined.




Lemma ParameterGrid_candidate (l : list (string * list value))
    (c : list (string * value)) :
  c ∈ foldr (fun kv acc => v ← kv.2; rest ← acc; [(kv.1, v) :: rest]) [[]] l ->
  c.*1 = l.*1 /\ Forall2 (fun p kv => p.2 ∈ kv.2) c l.
Proof.
  revert c. induction l as [|kv l IH]; intros c Hc; simpl in Hc.
  - apply list_elem_of_singleton in Hc as ->. split; [done|constructor].
  - apply list_elem_of_bind in Hc as (v & Hc & Hv).
    apply list_elem_of_bind in Hc as (rest & Hc & Hrest).
    apply list_elem_of_singleton in Hc as ->.
    destruct (IH _ Hrest) as [Hk Hv']. split.
    + rewrite !fmap_cons. by rewrite Hk.
    + by constructor.
Qed.

(** X20: what a candidate is.  Every candidate of the search gives each key
    of the grid, and no other, one of the values listed for that key. *)
Theorem ParameterGrid_candidates (grid : list (string * list value))
    (c : list (string * value)) :
  c ∈ ParameterGrid grid ->
  c.*1 ≡ₚ grid.*1
  /\ forall k v, (k, v) ∈ c -> exists vs, (k, vs) ∈ grid /\ v ∈ vs.
Proof.
  intros Hc. apply ParameterGrid_candidate in Hc as [Hk Hv].
  pose proof (merge_sort_Permutation key_le grid) as Hperm. split.
  - rewrite Hk. by apply fmap_Permutation.
  - intros k v Hin.
    apply list_elem_of_lookup in Hin as [i Hi].
    destruct (Forall2_lookup_l _ _ _ _ _ Hv Hi) as ([k' vs] & Hi' & Hvs).
    assert (k' = k) as ->.
    { pose proof (f_equal (fun ks => ks !! i) Hk) as Hki. simpl in Hki.
      rewrite !list_lookup_fmap, Hi, Hi' in Hki. simpl in Hki. congruence. }
    exists vs. split; [|done].
    rewrite <- Hperm. by apply list_elem_of_lookup_2 in Hi'.
Qed.

Lemma ParameterGrid_candidates_witness :
  [("a__x", VInt 1); ("b", VBool true)].*1 ≡ₚ [("b", [VBool true]); ("a__x", [VInt 1; VInt 2])].*1
  /\ forall k v, (k, v) ∈ [("a__x", VInt 1); ("b", VBool true)] ->
       exists vs, (k, vs) ∈ [("b", [VBool true]); ("a__x", [VInt 1; VInt 2])] /\ v ∈ vs.
Proof.
  apply (ParameterGrid_candidates [("b", [VBool true]); ("a__x", [VInt 1; VInt 2])]).
  vm_compute. apply list_elem_of_here.
Defined.
(** ** What the search writes to (line 112) *)

Lemma run_bind_inv {S A B} (m : Run S A) (k : A -> Run S B) (h h' : S) (b : B) :
  (m ≫= k) h = Ok (b, h') -> exists a h1, m h = Ok (a, h1) /\ k a h1 = Ok (b, h').
Proof.
  unfold mbind, Run_bind. destruct (m h) as [[a h1]|e]; [eauto|done].
Qed.

Lemma run_ret_inv {S A} (a b : A) (h h' : S) :
  (mret a : Run S A) h = Ok (b, h') -> b = a /\ h' = h.
Proof. unfold mret, Run_ret. by intros [= <- <-]. Qed.

Lemma lift_inv {S A} (r : result A) (a : A) (h h' : S) :
  lift r h = Ok (a, h') -> r = Ok a /\ h' = h.
Proof. unfold lift. destruct r; [by intros [= <- <-]|done]. Qed.

Lemma mapM_run_inv {S A B} (P : S -> Prop) (Q : B -> Prop) (f : A -> Run S B)
    (l : list A) :
  (forall x h b h', P h -> f x h = Ok (b, h') -> P h' /\ Q b) ->
  forall h bs h', P h -> mapM f l h = Ok (bs, h') -> P h' /\ Forall Q bs.
Proof.
  intros Hf. induction l as [|x l IH]; intros h bs h' HP Hrun; simpl in Hrun.
  - apply run_ret_inv in Hrun as [-> ->]. by split.
  - apply run_bind_inv in Hrun as (b & h1 & Hx & Hrun).
    apply run_bind_inv in Hrun as (bs' & h2 & Hl & Hrun).
    apply run_ret_inv in Hrun as [-> ->].
    destruct (Hf _ _ _ _ HP Hx) as [HP1 HQ].
    destruct (IH _ _ _ HP1 Hl) as [HP2 HQs].
    split; [done|by constructor].
Qed.

Section StoreFrame.
Import Estimators.
Context {Data Features Model : Type}.
Variable fit_model : family -> gmap string value -> Data -> Model.
Variable meta_data : list (family * gmap string value) -> Z -> Data -> Data.
Variable train_fold test_fold : Z -> nat -> Data -> Data.
Variable roc_auc : list Model -> Model -> Data -> Q.
Variable h0 : list (@object Model).

Lemma extends_refl : extends h0 h0.
Proof. exists []. by rewrite app_nil_r. Qed.

Lemma extends_length (h : list object) : extends h0 h -> (length h0 <= length h)%nat.
Proof. intros (k & -> & _). rewrite length_app. lia. Qed.

Lemma extends_lookup_old (h : list object) (i : nat) :
  extends h0 h -> (i < length h0)%nat -> h !! i = h0 !! i.
Proof. intros (k & -> & _) Hi. by rewrite lookup_app_l. Qed.

Lemma extends_lookup (h : list object) (l : nat) (o : object) :
  extends h0 h -> (length h0 <= l)%nat -> h !! l = Some o -> refs_from (length h0) o.
Proof.
  intros (k & -> & Hk) Hl Hlook. rewrite lookup_app_r in Hlook by done.
  by apply (Forall_lookup_1 _ _ _ _ Hk Hlook).
Qed.

Lemma extends_alloc (h : list object) (o : object) :
  extends h0 h -> refs_from (length h0) o -> extends h0 (h ++ [o]).
Proof.
  intros (k & -> & Hk) Ho. exists (k ++ [o]). split; [by rewrite app_assoc|].
  apply Forall_app. split; [done|by constructor].
Qed.

Lemma extends_insert (h : list object) (l : nat) (o : object) :
  extends h0 h -> (length h0 <= l)%nat -> refs_from (length h0) o ->
  extends h0 (<[l := o]> h).
Proof.
  intros (k & -> & Hk) Hl Ho. exists (<[(l - length h0)%nat := o]> k). split.
  - by rewrite insert_app_r_alt.
  - by apply Forall_insert.
Qed.

Lemma alloc_extends (h h' : list object) (o : object) (l : nat) :
  extends h0 h -> refs_from (length h0) o -> alloc o h = Ok (l, h') ->
  extends h0 h' /\ (length h0 <= l)%nat.
Proof.
  intros He Ho [= <- <-]. split; [by apply extends_alloc|by apply extends_length].
Qed.

Lemma load_inv (h h' : list (@object Model)) (l : nat) (o : object) :
  load l h = Ok (o, h') -> h' = h /\ h !! l = Some o.
Proof. unfold load. destruct (h !! l); [by intros [= <- <-]|done]. Qed.

Lemma store_extends (h h' : list object) (l : nat) (o : object) (u : unit) :
  extends h0 h -> (length h0 <= l)%nat -> refs_from (length h0) o ->
  store l o h = Ok (u, h') -> extends h0 h'.
Proof. intros He Hl Ho [= _ <-]. by apply extends_insert. Qed.

Lemma clone_leaf_extends (h h' : list object) (l l' : nat) :
  extends h0 h -> clone_leaf l h = Ok (l', h') ->
  extends h0 h' /\ (length h0 <= l')%nat.
Proof.
  intros He Hrun. unfold clone_leaf in Hrun.
  apply run_bind_inv in Hrun as (o & h1 & Hload & Hrun).
  apply load_inv in Hload as [-> _].
  destruct o; try (by apply lift_inv in Hrun as [? _]).
  by apply (alloc_extends h h' _ l') in Hrun.
Qed.

Lemma clone_extends (h h' : list object) (l l' : nat) :
  extends h0 h -> clone l h = Ok (l', h') ->
  extends h0 h' /\ (length h0 <= l')%nat.
Proof.
  intros He Hrun. unfold clone in Hrun.
  apply run_bind_inv in Hrun as (o & h1 & Hload & Hrun).
  apply load_inv in Hload as [-> _].
  destruct o as [cls params fitted|estimators final_estimator cv fitted|]; simpl in Hrun.
  - by apply (alloc_extends h h' _ l') in Hrun.
  - apply run_bind_inv in Hrun as (estimators' & h1 & Hests & Hrun).
    apply run_bind_inv in Hrun as (final' & h2 & Hfinal & Hrun).
    apply (mapM_run_inv (extends h0) (fun ne => (length h0 <= ne.2)%nat)) in Hests
      as [He1 Hrefs]; [|clear -h0|done].
    + apply clone_leaf_extends in Hfinal as [He2 Hf]; [|done].
      by apply (alloc_extends h2 h' _ l') in Hrun.
    + intros x h b h' He Hrun.
      apply run_bind_inv in Hrun as (e' & h1 & Hc & Hrun).
      apply run_ret_inv in Hrun as [-> ->].
      by apply clone_leaf_extends in Hc.
  - done.
Qed.
Lemma set_own_param_extends (h h' : list object) (l : nat) (name : string)
    (v : value) (u : unit) :
  extends h0 h -> (length h0 <= l)%nat ->
  set_own_param l name v h = Ok (u, h') -> extends h0 h'.
Proof.
  intros He Hl Hrun. unfold set_own_param in Hrun.
  apply run_bind_inv in Hrun as (o & h1 & Hload & Hrun).
  apply load_inv in Hload as [-> Hlook].
  pose proof (extends_lookup _ _ _ He Hl Hlook) as Hrefs.
  destruct o as [cls params fitted|estimators final_estimator cv fitted|].
  - case_bool_decide; [|by apply lift_inv in Hrun as [? _]].
    by apply store_extends in Hrun.
  - repeat case_match; try (by apply lift_inv in Hrun as [? _]).
    by apply store_extends in Hrun.
  - by apply lift_inv in Hrun as [? _].
Qed.

Lemma set_param_extends (h h' : list object) (l : nat) (key : string)
    (v : value) (u : unit) :
  extends h0 h -> (length h0 <= l)%nat ->
  set_param l key v h = Ok (u, h') -> extends h0 h'.
Proof.
  intros He Hl Hrun. unfold set_param in Hrun.
  destruct (partition_dunder key) as [name [sub|]].
  - apply run_bind_inv in Hrun as (o & h1 & Hload & Hrun).
    apply load_inv in Hload as [-> Hlook].
    pose proof (extends_lookup _ _ _ He Hl Hlook) as Hrefs.
    destruct o as [cls params fitted|estimators final_estimator cv fitted|];
      try (by apply lift_inv in Hrun as [? _]).
    apply run_bind_inv in Hrun as (target & h1 & Htarget & Hrun).
    apply lift_inv in Htarget as [Htarget ->].
    destruct Hrefs as [Hests Hfinal].
    apply set_own_param_extends in Hrun; [done|done|].
    case_bool_decide.
    + by injection Htarget as <-.
    + destruct ((list_to_map estimators : gmap string nat) !! name) as [t|] eqn:Ht;
        [|done].
      injection Htarget as <-. apply elem_of_list_to_map_2 in Ht.
      rewrite Forall_forall in Hests. apply (Hests _ Ht).
  - by apply set_own_param_extends in Hrun.
Qed.

Lemma set_params_extends (h h' : list object) (l : nat)
    (params : list (string * value)) (u : unit) :
  extends h0 h -> (length h0 <= l)%nat ->
  set_params l params h = Ok (u, h') -> extends h0 h'.
Proof.
  intros He Hl Hrun. unfold set_params in Hrun.
  apply run_bind_inv in Hrun as (us & h1 & Hrun & Hret).
  apply run_ret_inv in Hret as [_ ->].
  apply (mapM_run_inv (extends h0) (fun _ => True)) in Hrun as [He1 _]; [done| |done].
  intros kv h2 b h3 He2 Hset. split; [|done].
  by apply set_param_extends in Hset.
Qed.

Lemma fit_leaf_extends (h h' : list object) (l : nat) (data : Data) (u : unit) :
  extends h0 h -> (length h0 <= l)%nat ->
  fit_leaf fit_model l data h = Ok (u, h') -> extends h0 h'.
Proof.
  intros He Hl Hrun. unfold fit_leaf in Hrun.
  apply run_bind_inv in Hrun as (o & h1 & Hload & Hrun).
  apply load_inv in Hload as [-> _].
  destruct o; try (by apply lift_inv in Hrun as [? _]).
  by apply store_extends in Hrun.
Qed.

Lemma config_inv (h h' : list (@object Model)) (l : nat) c :
  config l h = Ok (c, h') -> h' = h.
Proof.
  intros Hrun. unfold config in Hrun.
  apply run_bind_inv in Hrun as (o & h1 & Hload & Hrun).
  apply load_inv in Hload as [-> _].
  destruct o; try (by apply lift_inv in Hrun as [? _]).
  by apply run_ret_inv in Hrun as [_ ->].
Qed.

Lemma fit_stacking_extends (h h' : list object) (l : nat) (data : Data) (u : unit) :
  extends h0 h -> (length h0 <= l)%nat ->
  fit_stacking fit_model meta_data l data h = Ok (u, h') -> extends h0 h'.
Proof.
  intros He Hl Hrun. unfold fit_stacking in Hrun.
  apply run_bind_inv in Hrun as (o & h1 & Hload & Hrun).
  apply load_inv in Hload as [-> Hlook].
  pose proof (extends_lookup _ _ _ He Hl Hlook) as Hrefs.
  destruct o as [cls params fitted|estimators final_estimator cv fitted|];
    try (by apply lift_inv in Hrun as [? _]).
  apply run_bind_inv in Hrun as (estimators_ & h1 & Hests & Hrun).
  apply run_bind_inv in Hrun as (configs & h2 & Hconfigs & Hrun).
  apply run_bind_inv in Hrun as (final_ & h3 & Hfinal & Hrun).
  apply run_bind_inv in Hrun as (u' & h4 & Hfit & Hrun).
  apply (mapM_run_inv (extends h0) (fun _ => True)) in Hests as [He1 _]; [| |done].
  2:{ intros ne h5 b h6 He5 Hstep.
      apply run_bind_inv in Hstep as (c & h7 & Hc & Hstep).
      apply run_bind_inv in Hstep as (u'' & h8 & Hf & Hstep).
      apply run_ret_inv in Hstep as [_ ->].
      apply clone_leaf_extends in Hc as [He7 Hc]; [|done].
      split; [|done]. by apply fit_leaf_extends in Hf. }
  apply (mapM_run_inv (extends h0) (fun _ => True)) in Hconfigs as [He2 _]; [| |done].
  2:{ intros ne h5 b h6 He5 Hstep. apply config_inv in Hstep as ->. done. }
  apply clone_leaf_extends in Hfinal as [He3 Hfinal]; [|done].
  apply fit_leaf_extends in Hfit; [|done|done].
  by apply store_extends in Hrun.
Qed.

Lemma fit_extends (h h' : list object) (l : nat) (data : Data) (u : unit) :
  extends h0 h -> (length h0 <= l)%nat ->
  fit fit_model meta_data l data h = Ok (u, h') -> extends h0 h'.
Proof.
  intros He Hl Hrun. unfold fit in Hrun.
  apply run_bind_inv in Hrun as (o & h1 & Hload & Hrun).
  apply load_inv in Hload as [-> _].
  destruct o.
  - by apply fit_leaf_extends in Hrun.
  - by apply fit_stacking_extends in Hrun.
  - by apply lift_inv in Hrun as [? _].
Qed.

Lemma fitted_model_inv (h h' : list (@object Model)) (l : nat) (m : Model) :
  fitted_model l h = Ok (m, h') -> h' = h.
Proof.
  intros Hrun. unfold fitted_model in Hrun.
  apply run_bind_inv in Hrun as (o & h1 & Hload & Hrun).
  apply load_inv in Hload as [-> _].
  destruct o as [? ? [?|]| |]; try (by apply lift_inv in Hrun as [? _]).
  by apply run_ret_inv in Hrun as [_ ->].
Qed.

Lemma score_inv (h h' : list (@object Model)) (l : nat) (data : Data) (q : Q) :
  score roc_auc l data h = Ok (q, h') -> h' = h.
Proof.
  intros Hrun. unfold score in Hrun.
  apply run_bind_inv in Hrun as (o & h1 & Hload & Hrun).
  apply load_inv in Hload as [-> _].
  destruct o as [| ? ? ? [[estimators_ final_]|] |];
    try (by apply lift_inv in Hrun as [? _]).
  apply run_bind_inv in Hrun as (ms & h1 & Hms & Hrun).
  apply run_bind_inv in Hrun as (m & h2 & Hm & Hrun).
  apply run_ret_inv in Hrun as [_ ->].
  apply fitted_model_inv in Hm as ->.
  apply (mapM_run_inv (fun h1 => h1 = h) (fun _ => True)) in Hms as [-> _]; [done| |done].
  intros ne h3 b h4 -> Hstep. by apply fitted_model_inv in Hstep as ->.
Qed.

Lemma fit_and_score_extends (h h' : list object) (base : nat) (cv : Z) (data : Data)
    (candidate : list (string * value)) (k : nat) (q : Q) :
  extends h0 h ->
  fit_and_score fit_model meta_data train_fold test_fold roc_auc
    base cv data candidate k h = Ok (q, h') ->
  extends h0 h'.
Proof.
  intros He Hrun. unfold fit_and_score in Hrun.
  apply run_bind_inv in Hrun as (e & h1 & Hclone & Hrun).
  apply run_bind_inv in Hrun as (u1 & h2 & Hset & Hrun).
  apply run_bind_inv in Hrun as (u2 & h3 & Hfit & Hrun).
  apply clone_extends in Hclone as [He1 Hl]; [|done].
  apply set_params_extends in Hset; [|done|done].
  apply fit_extends in Hfit; [|done|done].
  by apply score_inv in Hrun as ->.
Qed.

Lemma evaluate_candidates_extends (h h' : list object) (base : nat) (cv : Z)
    (data : Data) (candidates : list (list (string * value))) (scores : list Q) :
  extends h0 h ->
  evaluate_candidates fit_model meta_data train_fold test_fold roc_auc
    base cv data candidates h = Ok (scores, h') ->
  extends h0 h'.
Proof.
  intros He Hrun. unfold evaluate_candidates in Hrun.
  apply (mapM_run_inv (extends h0) (fun _ => True)) in Hrun as [He1 _]; [done| |done].
  intros candidate h1 q h2 He1 Hstep. split; [|done].
  apply run_bind_inv in Hstep as (qs & h3 & Hfolds & Hret).
  apply run_ret_inv in Hret as [_ ->].
  apply (mapM_run_inv (extends h0) (fun _ => True)) in Hfolds as [He3 _]; [done| |done].
  intros k h4 q' h5 He4 Hfs. split; [|done].
  by apply fit_and_score_extends in Hfs.
Qed.

Lemma refit_extends (h h' : list object) (gs base : nat) (data : Data)
    (best : option (list (string * value))) (best_score : Q) (u : unit) :
  extends h0 h ->
  refit fit_model meta_data gs base data best best_score h = Ok (u, h') ->
  exists h1 o, extends h0 h1 /\ h' = <[gs := o]> h1.
Proof.
  intros He Hrun. unfold refit in Hrun.
  destruct best as [best_params|]; [|by apply lift_inv in Hrun as [? _]].
  apply run_bind_inv in Hrun as (e & h1 & Hclone & Hrun).
  apply run_bind_inv in Hrun as (u1 & h2 & Hset & Hrun).
  apply run_bind_inv in Hrun as (u2 & h3 & Hfit & Hrun).
  apply run_bind_inv in Hrun as (o & h4 & Hload & Hrun).
  apply clone_extends in Hclone as [He1 Hl]; [|done].
  apply set_params_extends in Hset; [|done|done].
  apply fit_extends in Hfit; [|done|done].
  apply load_inv in Hload as [-> _].
  destruct o; try (by apply lift_inv in Hrun as [? _]).
  injection Hrun as <-. eauto.
Qed.
End StoreFrame.

Section SearchFrame.
Import Estimators.
Context {Data Features Model : Type}.
Variable fit_model : family -> gmap string value -> Data -> Model.
Variable meta_data : list (family * gmap string value) -> Z -> Data -> Data.
Variable train_fold test_fold : Z -> nat -> Data -> Data.
Variable roc_auc : list Model -> Model -> Data -> Q.

(** X21: the search writes to the search object only.  For every store,
    every grid and every training set: when [grid_search.fit] returns, the
    store has grown and every object that existed before, except the search
    object itself, is what it was; whatever the fitting, predicting and
    scoring functions are. *)
Theorem grid_search_fit_frame (gs : nat) (data : Data) (h h' : list (@object Model))
    (u : unit) :
  grid_search_fit fit_model meta_data train_fold test_fold roc_auc gs data h
  = Ok (u, h') ->
  (length h <= length h')%nat
  /\ forall i, (i < length h)%nat -> i ≠ gs -> h' !! i = h !! i.
Proof.
  intros Hrun. unfold grid_search_fit in Hrun.
  apply run_bind_inv in Hrun as (o & h1 & Hload & Hrun).
  apply load_inv in Hload as [-> _].
  destruct o as [| |estimator grid cv best]; try (by apply lift_inv in Hrun as [? _]).
  apply run_bind_inv in Hrun as (base & h1 & Hclone & Hrun).
  apply run_bind_inv in Hrun as (scores & h2 & Heval & Hrun).
  apply (clone_extends h) in Hclone as [He1 Hbase]; [|apply extends_refl].
  apply (evaluate_candidates_extends fit_model meta_data train_fold test_fold roc_auc h)
    in Heval; [|done].
  apply (refit_extends fit_model meta_data h) in Hrun as (h3 & o & He3 & ->); [|done].
  split.
  - rewrite length_insert. by apply extends_length.
  - intros i Hi Hne. rewrite list_lookup_insert_ne by done.
    by apply extends_lookup_old.
Qed.
End SearchFrame.

Lemma grid_search_fit_frame_witness :
  (length small_store <= length (store_after small_search))%nat
  /\ forall i, (i < length small_store)%nat -> i ≠ 3%nat ->
       store_after small_search !! i = small_store !! i.
Proof.
  apply (grid_search_fit_frame (Data := unit) (fun _ _ _ => ()) (fun _ _ d => d)
           (fun _ _ d => d) (fun _ _ d => d) (fun _ _ _ => 1%Q) 3 ()
           small_store (store_after small_search) ()).
  vm_compute. reflexivity.
Defined.

(** ** Clones (lines 89-97 and 112) *)

Lemma mapM_run_Forall2 {S A B} (P : S -> Prop) (Q : A -> B -> Prop)
    (f : A -> Run S B) (l : list A) :
  (forall x h b h', P h -> f x h = Ok (b, h') -> P h' /\ Q x b) ->
  forall h bs h', P h -> mapM f l h = Ok (bs, h') -> P h' /\ Forall2 Q l bs.
Proof.
  intros Hf. induction l as [|x l IH]; intros h bs h' HP Hrun; simpl in Hrun.
  - apply run_ret_inv in Hrun as [-> ->]. by split.
  - apply run_bind_inv in Hrun as (b & h1 & Hx & Hrun).
    apply run_bind_inv in Hrun as (bs' & h2 & Hl & Hrun).
    apply run_ret_inv in Hrun as [-> ->].
    destruct (Hf _ _ _ _ HP Hx) as [HP1 HQ].
    destruct (IH _ _ _ HP1 Hl) as [HP2 HQs].
    split; [done|by constructor].
Qed.

Section Clones.
Import Estimators.
Context {Model : Type}.

Lemma clone_leaf_prefix (h h' : list (@object Model)) (l l' : nat) :
  clone_leaf l h = Ok (l', h') ->
  exists cls params fitted,
    h !! l = Some (Estimator cls params fitted)
    /\ l' = length h /\ h' = h ++ [Estimator cls params None].
Proof.
  intros Hrun. unfold clone_leaf in Hrun.
  apply run_bind_inv in Hrun as (o & h1 & Hload & Hrun).
  apply load_inv in Hload as [-> Hlook].
  destruct o as [cls params fitted| |]; try (by apply lift_inv in Hrun as [? _]).
  injection Hrun as <- <-. eauto 6.
Qed.

(** X22: a clone shares nothing with its original.  When [clone] returns it
    has only added objects to the store; the clone of a plain estimator is a
    new unfitted estimator of the same class with the same parameters; the
    clone of an ensemble is a new unfitted ensemble with the same names and
    the same number of folds whose estimators are all new objects. *)
Theorem clone_shares_nothing (l l' : nat) (h h' : list (@object Model)) :
  clone l h = Ok (l', h') ->
  h `prefix_of` h'
  /\ (length h <= l')%nat
  /\ (forall cls params fitted,
        h !! l = Some (Estimator cls params fitted) ->
        h' !! l' = Some (Estimator cls params None))
  /\ (forall estimators final_estimator cv fitted,
        h !! l = Some (StackingClassifier estimators final_estimator cv fitted) ->
        exists estimators' final_estimator',
          h' !! l' = Some (StackingClassifier estimators' final_estimator' cv None)
          /\ estimators'.*1 = estimators.*1
          /\ Forall (fun ne : string * nat => (length h <= ne.2)%nat) estimators'
          /\ (length h <= final_estimator')%nat).
Proof.
  intros Hrun. unfold clone in Hrun.
  apply run_bind_inv in Hrun as (o & h1 & Hload & Hrun).
  apply load_inv in Hload as [-> Hlook]. rewrite Hlook.
  destruct o as [cls params fitted|estimators final_estimator cv fitted|]; simpl in Hrun;
    [| |done].
  - injection Hrun as <- <-.
    split; [by apply prefix_app_r|]. split; [done|]. split; [|done].
    intros ? ? ? [= <- <- <-]. by rewrite lookup_app_r, Nat.sub_diag.
  - apply run_bind_inv in Hrun as (estimators' & h1 & Hests & Hrun).
    apply run_bind_inv in Hrun as (final' & h2 & Hfinal & Hrun).
    injection Hrun as <- <-.
    apply (mapM_run_Forall2 (fun h1 => h `prefix_of` h1)
             (fun ne ne' : string * nat => ne'.1 = ne.1 /\ (length h <= ne'.2)%nat))
      in Hests as [Hpre Hrefs]; [| |done].
    2:{ intros ne h3 b h4 Hpre Hstep.
        apply run_bind_inv in Hstep as (e' & h5 & Hc & Hstep).
        apply run_ret_inv in Hstep as [-> ->].
        apply clone_leaf_prefix in Hc as (? & ? & ? & _ & -> & ->).
        split; [by apply prefix_app_r|]. split; [done|]. simpl.
        by apply prefix_length. }
    apply clone_leaf_prefix in Hfinal as (? & ? & ? & _ & -> & ->).
    pose proof (prefix_length _ _ Hpre) as Hlen.
    split; [by do 2 apply prefix_app_r|].
    split; [rewrite length_app; simpl; lia|]. split; [done|].
    intros ? ? ? ? [= <- <- <- <-]. exists estimators', (length h1).
    split; [by rewrite lookup_app_r, Nat.sub_diag|]. split; [|split; [|done]].
    + clear -Hrefs. induction Hrefs as [|ne ne' ? ? [Hn _] _ IH]; [done|].
      rewrite !fmap_cons. by rewrite Hn, IH.
    + clear -Hrefs. induction Hrefs as [|ne ne' ? ? [_ Hn] _ IH]; by constructor.
Qed.

End Clones.

Lemma clone_shares_nothing_witness :
  small_store `prefix_of` store_after (Estimators.clone 2 small_store)
  /\ (length small_store <= 6)%nat
  /\ (forall cls params fitted,
        small_store !! 2%nat = Some (Estimators.Estimator cls params fitted) ->
        store_after (Estimators.clone 2 small_store) !! 6%nat = Some (Estimators.Estimator cls params None))
  /\ (forall estimators final_estimator cv fitted,
        small_store !! 2%nat
        = Some (Estimators.StackingClassifier estimators final_estimator cv fitted) ->
        exists estimators' final_estimator',
          store_after (Estimators.clone 2 small_store) !! 6%nat
          = Some (Estimators.StackingClassifier estimators' final_estimator' cv None)
          /\ estimators'.*1 = estimators.*1
          /\ Forall (fun ne : string * nat => (length small_store <= ne.2)%nat) estimators'
          /\ (length small_store <= final_estimator')%nat).
Proof.
  apply (clone_shares_nothing 2 6 small_store (store_after (Estimators.clone 2 small_store))).
  vm_compute. reflexivity.
Defined.
(** ** The diversity score (lines 160-163) *)

Lemma Qsum_nonneg (xs : list Q) : Forall (fun x => (0 <= x)%Q) xs -> (0 <= Qsum xs)%Q.
Proof.
  induction 1 as [|x xs Hx _ IH]; [apply Qle_refl|].
  rewrite Qsum_cons. lra.
Qed.

Lemma Qsum_zero (xs : list Q) :
  Forall (fun x => (0 <= x)%Q) xs ->
  (Qsum xs == 0)%Q <-> Forall (fun x => (x == 0)%Q) xs.
Proof.
  induction 1 as [|x xs Hx Hxs IH]; [by split|].
  rewrite Qsum_cons. pose proof (Qsum_nonneg _ Hxs) as Hs. split.
  - intros H0. constructor; [lra|]. apply IH. lra.
  - intros Hall. apply Forall_cons in Hall as [Hx0 Hall]. apply IH in Hall. lra.
Qed.

Lemma Qmean_zero (xs : list Q) (q : Q) :
  Forall (fun x => (0 <= x)%Q) xs -> Qmean xs = Some q ->
  (q == 0)%Q <-> Forall (fun x => (x == 0)%Q) xs.
Proof.
  intros Hxs Hq. apply Qmean_Some in Hq as [Hne ->].
  rewrite <- (Qsum_zero _ Hxs).
  assert (Hn : (0 < inject_Z (Z.of_nat (length xs)))%Q).
  { apply inject_nat_pos. destruct xs; [done|simpl; lia]. }
  split; intros H0.
  - apply (Qmult_inj_r _ _ (/ inject_Z (Z.of_nat (length xs)))).
    + intros Hinv. apply Qinv_lt_0_compat in Hn. lra.
    + rewrite Qmult_0_l. exact H0.
  - unfold Qdiv. rewrite H0. apply Qmult_0_l.
Qed.

Lemma hamming_triple_zero (r1 r2 : list Z) :
  is_triple r1 -> is_triple r2 -> (hamming r1 r2 == 0)%Q <-> r1 = r2.
Proof.
  intros (x1 & y1 & z1 & ->) (x2 & y2 & z2 & ->). unfold hamming. simpl.
  rewrite !filter_cons, filter_nil. simpl.
  destruct (decide (x1 ≠ x2)), (decide (y1 ≠ y2)), (decide (z1 ≠ z2)); simpl;
    (split;
     [intros H; first [by vm_compute in H
                      |f_equal; [lia|f_equal; [lia|f_equal; lia]]]
     |intros [= ? ? ?]; first [done|lia|reflexivity]]).
Qed.

Lemma pred_matrix_rows (knn_pred svm_pred dt_pred : list Z) (M : list (list Z)) :
  pred_matrix knn_pred svm_pred dt_pred = Ok M ->
  length svm_pred = length knn_pred /\ length dt_pred = length knn_pred
  /\ forall r, r ∈ M <->
       exists i a b c, r = [a; b; c] /\ knn_pred !! i = Some a
                       /\ svm_pred !! i = Some b /\ dt_pred !! i = Some c.
Proof.
  unfold pred_matrix. case_bool_decide as Hlen; [|discriminate]. intros [= <-].
  destruct Hlen as [H1 H2]. split; [done|]. split; [congruence|].
  intros r. rewrite elem_of_lookup_zip_with. split.
  - intros (i & a & [b c] & -> & Ha & Hbc).
    apply lookup_zip_with_Some in Hbc as (b' & c' & [= <- <-] & Hb & Hc).
    by exists i, a, b, c.
  - intros (i & a & b & c & -> & Ha & Hb & Hc).
    exists i, a, (b, c). split; [done|]. split; [done|].
    apply lookup_zip_with_Some. by exists b, c.
Qed.

Lemma constant_replicate (xs : list Z) (a : Z) :
  (forall i x, xs !! i = Some x -> x = a) -> xs = replicate (length xs) a.
Proof.
  intros Hall. symmetry. apply replicate_as_Forall. split; [done|].
  apply Forall_lookup. intros i x Hx. symmetry. by apply (Hall i).
Qed.

(** X23: when the diversity score is defined.  The score is computed exactly
    when the three prediction vectors have one length and are not empty, and
    then lies between 0 and 1; in every other case the computation raises
    [ValueError]. *)
Theorem disagreements_outcome (knn_pred svm_pred dt_pred : list Z) :
  ((length knn_pred = length svm_pred /\ length svm_pred = length dt_pred
    /\ knn_pred ≠ [])
   <-> exists q, disagreements knn_pred svm_pred dt_pred = Ok q /\ (0 <= q <= 1)%Q)
  /\ (~ (length knn_pred = length svm_pred /\ length svm_pred = length dt_pred
         /\ knn_pred ≠ [])
      <-> disagreements knn_pred svm_pred dt_pred = Raise ValueError).
Proof.
  destruct (disagreements knn_pred svm_pred dt_pred) as [q|e] eqn:Hd.
  - pose proof (disagreements_range _ _ _ _ Hd) as Hq.
    assert (Hlen : length knn_pred = length svm_pred /\ length svm_pred = length dt_pred
                   /\ knn_pred ≠ []).
    { revert Hd. unfold disagreements, pred_matrix.
      case_bool_decide as Hlen; [|discriminate]. destruct Hlen as [H1 H2].
      split; [done|]. split; [done|]. intros ->.
      destruct svm_pred; [|done]. destruct dt_pred; done. }
    split; [split; eauto|]. split; [done|discriminate].
  - assert (Hlen : ~ (length knn_pred = length svm_pred /\ length svm_pred = length dt_pred
                      /\ knn_pred ≠ []) /\ e = ValueError).
    { revert Hd. unfold disagreements, pred_matrix.
      case_bool_decide as Hlen.
      - destruct Hlen as [H1 H2]. simpl. unfold pairwise_distances_mean.
        destruct knn_pred as [|a knn_pred]; [intros [= <-]; split; [|done]; tauto|].
        destruct svm_pred as [|b svm_pred]; [done|].
        destruct dt_pred as [|c dt_pred]; [done|]. done.
      - intros [= <-]. split; [|done]. tauto. }
    destruct Hlen as [Hlen ->].
    split; [split; [done|intros (q & [=] & _)]|done].
Qed.

(** X24: what a score of zero means.  When the score is computed, it is 0
    exactly when each learner predicts one and the same class for every
    held-out instance; the learners may then differ from each other on every
    instance. *)
Theorem disagreements_zero (knn_pred svm_pred dt_pred : list Z) (q : Q) :
  disagreements knn_pred svm_pred dt_pred = Ok q ->
  (q == 0)%Q
  <-> exists a b c,
        knn_pred = replicate (length knn_pred) a
        /\ svm_pred = replicate (length knn_pred) b
        /\ dt_pred = replicate (length knn_pred) c.
Proof.
  unfold disagreements.
  destruct (pred_matrix knn_pred svm_pred dt_pred) as [M|e] eqn:HM; [|discriminate].
  simpl. unfold pairwise_distances_mean.
  destruct (Qmean _) as [q'|] eqn:Hmean; [|discriminate]. intros [= <-].
  pose proof (pred_matrix_triples _ _ _ _ HM) as Htriples.
  rewrite Forall_forall in Htriples.
  destruct (pred_matrix_rows _ _ _ _ HM) as (Hs & Hd & Hrows).
  assert (Hpos : Forall (fun x => (0 <= x)%Q) (r1 ← M; r2 ← M; [hamming r1 r2])).
  { apply Forall_forall. intros x Hx.
    apply list_elem_of_bind in Hx as (r1 & Hx & _).
    apply list_elem_of_bind in Hx as (r2 & Hx & _).
    apply list_elem_of_singleton in Hx as ->. apply hamming_bounds. }
  rewrite (Qmean_zero _ _ Hpos Hmean).
  rewrite Forall_forall. split.
  - intros Hall.
    assert (Heq : forall r1 r2, r1 ∈ M -> r2 ∈ M -> r1 = r2).
    { intros r1 r2 H1 H2. apply hamming_triple_zero; [auto|auto|].
      apply Hall. apply list_elem_of_bind. exists r1. split; [|done].
      apply list_elem_of_bind. exists r2. split; [|done]. by apply list_elem_of_singleton. }
    destruct knn_pred as [|a knn_pred].
    { destruct svm_pred; [|done]. destruct dt_pred; [|done]. by exists 0, 0, 0. }
    destruct svm_pred as [|b svm_pred]; [done|].
    destruct dt_pred as [|c dt_pred]; [done|].
    assert (H0 : [a; b; c] ∈ M) by (apply Hrows; by exists 0%nat, a, b, c).
    exists a, b, c.
    split; [|split; [rewrite <- Hs|rewrite <- Hd]]; apply constant_replicate;
      intros i x Hx.
    + destruct (lookup_lt_is_Some_2 (b :: svm_pred) i) as [y Hy];
        [rewrite Hs; by apply lookup_lt_Some in Hx|].
      destruct (lookup_lt_is_Some_2 (c :: dt_pred) i) as [z Hz];
        [rewrite Hd; by apply lookup_lt_Some in Hx|].
      assert (Hi : [x; y; z] ∈ M) by (apply Hrows; by exists i, x, y, z).
      by injection (Heq _ _ Hi H0).
    + destruct (lookup_lt_is_Some_2 (a :: knn_pred) i) as [y Hy];
        [rewrite <- Hs; by apply lookup_lt_Some in Hx|].
      destruct (lookup_lt_is_Some_2 (c :: dt_pred) i) as [z Hz];
        [rewrite Hd, <- Hs; by apply lookup_lt_Some in Hx|].
      assert (Hi : [y; x; z] ∈ M) by (apply Hrows; by exists i, y, x, z).
      by injection (Heq _ _ Hi H0).
    + destruct (lookup_lt_is_Some_2 (a :: knn_pred) i) as [y Hy];
        [rewrite <- Hd; by apply lookup_lt_Some in Hx|].
      destruct (lookup_lt_is_Some_2 (b :: svm_pred) i) as [z Hz];
        [rewrite Hs, <- Hd; by apply lookup_lt_Some in Hx|].
      assert (Hi : [y; z; x] ∈ M) by (apply Hrows; by exists i, y, z, x).
      by injection (Heq _ _ Hi H0).
  - intros (a & b & c & Ha & Hb & Hc) x Hx.
    apply list_elem_of_bind in Hx as (r1 & Hx & H1).
    apply list_elem_of_bind in Hx as (r2 & Hx & H2).
    apply list_elem_of_singleton in Hx as ->.
    assert (Hrow : forall r, r ∈ M -> r = [a; b; c]).
    { intros r Hr. apply Hrows in Hr as (i & a' & b' & c' & -> & Ha' & Hb' & Hc').
      rewrite Ha in Ha'. rewrite Hb in Hb'. rewrite Hc in Hc'.
      apply lookup_replicate in Ha' as [-> _]. apply lookup_replicate in Hb' as [-> _].
      apply lookup_replicate in Hc' as [-> _]. done. }
    rewrite (Hrow _ H1), (Hrow _ H2).
    apply hamming_triple_zero; [by exists a, b, c|by exists a, b, c|done].
Qed.

Lemma disagreements_zero_witness :
  (0 # 324 == 0)%Q
  <-> exists a b c,
        [0; 0] = replicate (length [0; 0]) a
        /\ [1; 1] = replicate (length [0; 0]) b
        /\ [0; 0] = replicate (length [0; 0]) c.
Proof.
  apply (disagreements_zero [0; 0] [1; 1] [0; 0] (0 # 324)%Q).
  vm_compute. reflexivity.
Defined.

(** X25: the score does not depend on the order of the learners.  The six
    orders in which the three prediction vectors can be stacked all give the
    same result. *)
Theorem disagreements_any_order (knn_pred svm_pred dt_pred : list Z) :
  disagreements knn_pred dt_pred svm_pred = disagreements knn_pred svm_pred dt_pred
  /\ disagreements svm_pred knn_pred dt_pred = disagreements knn_pred svm_pred dt_pred
  /\ disagreements svm_pred dt_pred knn_pred = disagreements knn_pred svm_pred dt_pred
  /\ disagreements dt_pred knn_pred svm_pred = disagreements knn_pred svm_pred dt_pred
  /\ disagreements dt_pred svm_pred knn_pred = disagreements knn_pred svm_pred dt_pred.
Proof.
  destruct (disagreements_reorder knn_pred svm_pred dt_pred) as [H12 H23].
  destruct (disagreements_reorder svm_pred knn_pred dt_pred) as [_ H23'].
  destruct (disagreements_reorder knn_pred dt_pred svm_pred) as [H12' _].
  destruct (disagreements_reorder dt_pred knn_pred svm_pred) as [_ H23''].
  repeat split; congruence.
Qed.
(** ** The sizes of the prepared data (lines 67-78) *)

Lemma round_half_even_bounds (q : Q) :
  (Qfloor q <= round_half_even q <= Qfloor q + 1)%Z.
Proof.
  unfold round_half_even. destruct (_ ?= _)%Q; [destruct (Z.even _)| |]; lia.
Qed.

Lemma sample_size_large (N : nat) :
  (15 <= N)%nat ->
  (2 <= Z.to_nat (round_half_even ((1 # 10) * inject_Z (Z.of_nat N))) <= N)%nat.
Proof.
  intros HN. destruct (decide (N < 20)%nat) as [Hlt|Hge].
  - do 20 (destruct N as [|N]; [vm_compute; lia|]). lia.
  - pose proof (round_half_even_bounds ((1 # 10) * inject_Z (Z.of_nat N))) as [Hlo Hhi].
    assert (H20 : (inject_Z 20 <= inject_Z (Z.of_nat N))%Q) by (rewrite <- Zle_Qle; lia).
    assert (H2 : (2 <= Qfloor ((1 # 10) * inject_Z (Z.of_nat N)))%Z).
    { rewrite <- (Qfloor_Z 2). apply Qfloor_resp_le.
      change (inject_Z 20) with 20%Q in H20. change (inject_Z 2) with 2%Q. lra. }
    assert (HN' : (Qfloor ((1 # 10) * inject_Z (Z.of_nat N)) + 1 <= Z.of_nat N)%Z).
    { pose proof (Qfloor_le ((1 # 10) * inject_Z (Z.of_nat N))) as Hf.
      assert (Hle : (inject_Z (Qfloor ((1 # 10) * inject_Z (Z.of_nat N)) + 1)
                     <= inject_Z (Z.of_nat N))%Q).
      { rewrite inject_Z_plus. change (inject_Z 1) with 1%Q.
        change (inject_Z 20) with 20%Q in H20. lra. }
      by rewrite <- Zle_Qle in Hle. }
    lia.
Qed.

Lemma test_size_bounds (n : nat) :
  (2 <= n)%nat ->
  (1 <= Z.to_nat (Qceiling ((2 # 10) * inject_Z (Z.of_nat n))) < n)%nat.
Proof.
  intros Hn.
  assert (H2 : (inject_Z 2 <= inject_Z (Z.of_nat n))%Q) by (rewrite <- Zle_Qle; lia).
  change (inject_Z 2) with 2%Q in H2.
  assert (Hpos : (0 < (2 # 10) * inject_Z (Z.of_nat n))%Q) by lra.
  apply Qceiling_pos in Hpos.
  pose proof (Qceiling_lt ((2 # 10) * inject_Z (Z.of_nat n))) as Hc.
  assert (Hlt : (inject_Z (Qceiling ((2 # 10) * inject_Z (Z.of_nat n)) - 1)
                 < inject_Z (Z.of_nat n - 1))%Q).
  { unfold Z.sub at 2. rewrite (inject_Z_plus (Z.of_nat n)).
    change (inject_Z (- (1))) with (- (1))%Q. lra. }
  rewrite <- Zlt_Qlt in Hlt. lia.
Qed.

Lemma take_matrix_shape (idx : list nat) (M M' : Matrix) :
  take_matrix idx M = Some M' ->
  length M' = length M /\ Forall (fun col => length col = length idx) M'.
Proof.
  unfold take_matrix. intros HM. split; [by apply length_mapM in HM|].
  apply mapM_Some in HM.
  induction HM as [|col col' M M' Hcol _ IH]; constructor; [|done].
  by apply take_list_length in Hcol.
Qed.

Lemma length_drop_columns {A} (name : string) (df : DataFrame A) :
  (length (drop_columns name df) + length (select name df))%nat = length df.
Proof.
  unfold drop_columns, select. rewrite length_fmap.
  induction df as [|[n s] df IH]; [done|].
  rewrite !filter_cons. cbn [fst].
  destruct (decide (n ≠ name)), (decide (n = name)); simpl; try done; lia.
Qed.

Lemma length_transform sqrt (X : Matrix) :
  length (transform (fit_column sqrt <$> X) X) = length X.
Proof. unfold transform. rewrite length_zip_with, length_fmap. lia. Qed.

Section LargeInputs.
Context {G : Type} `{RandomStateLaws G}.
Variable sqrt : Q -> Q.

(** X26: what the script holds after the split.  With a generator that draws
    permutations, when the combined data is rectangular, has exactly one
    column labelled [num], at least one other column and at least 15 rows,
    the run of lines 67-78 returns and leaves the process-wide generator as
    it was.  With [n] the tenth of the rows rounded half to even and [k] the
    fifth of [n] rounded up, the test part has [k] rows and the training part
    [n - k], neither is empty, the labels have as many cells as their part
    has rows, and both parts have every column of the data but [num]. *)
Theorem sample_scale_split_sizes (combined_data : DataFrame Series) (g : G) :
  rectangular combined_data (nrows combined_data) ->
  length (filter (fun l => l = "num") (columns combined_data)) = 1%nat ->
  (2 <= length combined_data)%nat ->
  (15 <= nrows combined_data)%nat ->
  exists p n k,
    sample_scale_split sqrt combined_data g = Ok (p, g)
    /\ n = Z.to_nat (round_half_even
                       ((1 # 10) * inject_Z (Z.of_nat (nrows combined_data))))
    /\ k = Z.to_nat (Qceiling ((2 # 10) * inject_Z (Z.of_nat n)))
    /\ (2 <= n <= nrows combined_data)%nat
    /\ (1 <= k < n)%nat
    /\ series_len (y_train p) = (n - k)%nat
    /\ series_len (y_test p) = k
    /\ length (X_train p) = (length combined_data - 1)%nat
    /\ length (X_test p) = (length combined_data - 1)%nat
    /\ Forall (fun col => length col = (n - k)%nat) (X_train p)
    /\ Forall (fun col => length col = k) (X_test p).
Proof.
  intros Hrect Hnum Hcols2 Hrows.
  set (N := nrows combined_data) in *.
  set (n := Z.to_nat (round_half_even ((1 # 10) * inject_Z (Z.of_nat N)))).
  set (k := Z.to_nat (Qceiling ((2 # 10) * inject_Z (Z.of_nat n)))).
  pose proof (sample_size_large N Hrows) as Hn. fold n in Hn.
  pose proof (test_size_bounds n (proj1 Hn)) as Hk. fold k in Hk.
  (* the sample *)
  set (perm := (permutation (seed 42) N).1).
  assert (Hperm : perm ≡ₚ seq 0 N) by apply permutation_perm.
  assert (Hplen : length perm = N) by (rewrite Hperm; apply length_seq).
  assert (Hrange : Forall (fun j => (j < N)%nat) (take n perm)).
  { apply Forall_take. rewrite Hperm. apply Forall_forall.
    intros j Hj%elem_of_seq. lia. }
  destruct (take_frame_is_Some (take n perm) _ _ Hrect Hrange) as [sampled Hsampled].
  destruct (take_frame_shape _ _ _ Hsampled) as [Hcols Hshape].
  rewrite length_take, Hplen, Nat.min_l in Hshape by lia.
  assert (Hlen_sampled : length sampled = length combined_data).
  { apply (f_equal length) in Hcols. unfold columns in Hcols.
    by rewrite !length_fmap in Hcols. }
  (* the labels and the features *)
  assert (Hsel : length (select "num" sampled) = 1%nat).
  { by rewrite select_length_columns, Hcols. }
  destruct (select "num" sampled) as [|y [|]] eqn:Hy; try done. clear Hsel.
  assert (Hy_in : y ∈ sampled.*2).
  { assert (Hin : y ∈ select "num" sampled) by (rewrite Hy; apply list_elem_of_here).
    unfold select in Hin. apply list_elem_of_fmap in Hin as (c & -> & Hc).
    apply list_elem_of_filter in Hc as [_ Hc]. by apply list_elem_of_fmap_2. }
  assert (Hy_len : series_len y = n).
  { apply list_elem_of_fmap in Hy_in as (c & -> & Hc).
    unfold rectangular in Hshape. rewrite Forall_forall in Hshape. by apply Hshape. }
  assert (Hnum_in : "num" ∈ columns sampled).
  { rewrite Hcols.
    destruct (filter (fun l => l = "num") (columns combined_data)) as [|l ?] eqn:Hf;
      [done|].
    assert (Hl : l ∈ filter (fun l => l = "num") (columns combined_data))
      by (rewrite Hf; apply list_elem_of_here).
    apply list_elem_of_filter in Hl as [-> Hl]. done. }
  set (X := drop_columns "num" sampled).
  assert (HX_len : length X = (length combined_data - 1)%nat).
  { pose proof (length_drop_columns "num" sampled) as Hd. rewrite Hy in Hd.
    simpl in Hd. fold X in Hd. lia. }
  assert (HX_rect : rectangular X n) by by apply rectangular_drop_columns.
  set (Xm := to_floats <$> X.*2).
  assert (HXm_len : length Xm = (length combined_data - 1)%nat).
  { unfold Xm. by rewrite !length_fmap. }
  assert (HXm_rows : matrix_nrows Xm = n).
  { apply matrix_nrows_features; [done|lia]. }
  assert (HXm_rect : Forall (fun col => length col = n) Xm).
  { unfold Xm. apply Forall_fmap, Forall_fmap.
    eapply Forall_impl; [exact HX_rect|]. intros c Hc. simpl.
    by rewrite series_len_to_floats. }
  (* the split *)
  set (perm2 := (permutation (seed 42) n).1).
  assert (Hperm2 : perm2 ≡ₚ seq 0 n) by apply permutation_perm.
  assert (Hplen2 : length perm2 = n) by (rewrite Hperm2; apply length_seq).
  assert (Hin2 : Forall (fun j => (j < n)%nat) perm2).
  { rewrite Hperm2. apply Forall_forall. intros j Hj%elem_of_seq. lia. }
  set (train := take (n - k) (drop k perm2)).
  set (test := take k perm2).
  assert (Hsplit : split_indices n (2 # 10) (Some 42) g = Ok ((train, test), g)).
  { unfold split_indices. fold k. rewrite bool_decide_eq_false_2 by lia. done. }
  assert (Htrain : Forall (fun j => (j < n)%nat) train).
  { by apply Forall_take, Forall_drop. }
  assert (Htest : Forall (fun j => (j < n)%nat) test) by by apply Forall_take.
  assert (Htrain_len : length train = (n - k)%nat).
  { unfold train. rewrite length_take, length_drop. lia. }
  assert (Htest_len : length test = k).
  { unfold test. rewrite length_take. lia. }
  destruct (scale_split_total sqrt Xm y g train test) as (p & Hp & Hscaler);
    rewrite ?HXm_rows; try done; try lia.
  destruct (scale_split_Ok sqrt _ _ _ _ _ Hp)
    as (_ & _ & _ & train' & test' & Hsplit' & Htr & Hte & Hytr & Hyte).
  rewrite Hscaler, matrix_nrows_transform, HXm_rows, Hsplit in Hsplit'.
  injection Hsplit' as <- <-.
  rewrite Hscaler in Htr, Hte.
  apply take_matrix_shape in Htr as [Htr1 Htr2].
  apply take_matrix_shape in Hte as [Hte1 Hte2].
  rewrite length_transform in Htr1, Hte1.
  apply take_series_len in Hytr. apply take_series_len in Hyte.
  exists p, n, k. split.
  - unfold sample_scale_split.
    rewrite sample_in_range by (vm_compute; discriminate). fold N. fold n.
    unfold mbind at 1, Run_bind. unfold mbind at 1, Run_bind.
    change (draw_permutation (Some 42) N g) with (Ok (perm, g) : result (list nat * G)).
    cbv beta iota. rewrite Hsampled. simpl.
    unfold mbind at 1, Run_bind, lift, drop_checked.
    rewrite bool_decide_eq_true_2 by done.
    unfold mbind at 1, Run_bind, getitem. rewrite Hy. exact Hp.
  - rewrite Htrain_len in Hytr, Htr2. rewrite Htest_len in Hyte, Hte2.
    rewrite HXm_len in Htr1, Hte1.
    repeat split; try done; lia.
Qed.
End LargeInputs.

Lemma sample_scale_split_sizes_witness :
  exists p n k,
    @sample_scale_split (fun x => x) nat rotating_generator fifteen_rows 0%nat
    = Ok (p, 0%nat)
    /\ n = Z.to_nat (round_half_even
                       ((1 # 10) * inject_Z (Z.of_nat (nrows fifteen_rows))))
    /\ k = Z.to_nat (Qceiling ((2 # 10) * inject_Z (Z.of_nat n)))
    /\ (2 <= n <= nrows fifteen_rows)%nat
    /\ (1 <= k < n)%nat
    /\ series_len (y_train p) = (n - k)%nat
    /\ series_len (y_test p) = k
    /\ length (X_train p) = (length fifteen_rows - 1)%nat
    /\ length (X_test p) = (length fifteen_rows - 1)%nat
    /\ Forall (fun col => length col = (n - k)%nat) (X_train p)
    /\ Forall (fun col => length col = k) (X_test p).
Proof.
  apply (@sample_scale_split_sizes nat rotating_generator rotating_generator_laws).
  - by repeat constructor.
  - reflexivity.
  - simpl. lia.
  - simpl. lia.
Defined.
(** ** The labels the classifiers are given (lines 60-78) *)

Lemma take_list_Forall {A} (P : A -> Prop) (idx : list nat) (xs ys : list A) :
  Forall P xs -> take_list idx xs = Some ys -> Forall P ys.
Proof.
  unfold take_list. intros HP Hm. apply mapM_Some in Hm.
  induction Hm as [|j y idx ys Hj _ IH]; constructor; [|done].
  by apply (Forall_lookup_1 _ _ _ _ HP Hj).
Qed.

Lemma take_series_binary (idx : list nat) (zs : list Z) (s : Series) :
  Forall (fun z => z = 0 \/ z = 1) zs ->
  take_series idx (Int64 zs) = Some s ->
  exists ys, s = Int64 ys /\ Forall (fun z => z = 0 \/ z = 1) ys.
Proof.
  intros Hzs Hs. simpl in Hs.
  destruct (take_list idx zs) as [ys|] eqn:Hys; [|done].
  injection Hs as <-. exists ys. split; [done|].
  by apply (take_list_Forall _ _ _ _ Hzs Hys).
Qed.

Lemma select_take_frame (name : string) (idx : list nat) (df df' : DataFrame Series) :
  take_frame idx df = Some df' ->
  Forall2 (fun s s' => take_series idx s = Some s') (select name df) (select name df').
Proof.
  unfold take_frame, select. intros Hm. apply mapM_Some in Hm.
  induction Hm as [|[n s] [n' s'] df df' Hc _ IH]; [constructor|].
  simpl in Hc. destruct (take_series idx s) as [t|] eqn:Ht; [|done].
  injection Hc as <- <-. rewrite !filter_cons. cbn [fst].
  destruct (decide (n = name)); [|done].
  rewrite !fmap_cons. by constructor.
Qed.

Lemma combine_labels_binary (uci_df india_df combined : DataFrame Series) :
  combine uci_df india_df = Ok combined ->
  exists zs, select "num" combined = [Int64 zs] /\ Forall (fun z => z = 0 \/ z = 1) zs.
Proof.
  unfold combine. intros Hc.
  destruct (binarize_num uci_df) as [uci'|] eqn:Hu; [|discriminate].
  destruct (binarize_num india_df) as [india'|] eqn:Hi; [|discriminate].
  simpl in Hc.
  destruct (binarize_num_Ok _ _ Hu) as (su & _ & Hu' & _).
  destruct (binarize_num_Ok _ _ Hi) as (si & _ & Hi' & _).
  pose proof (concat_getitem_int "num" _ _ _ _ _ Hc Hu' Hi') as Hg.
  exists (apply_binarize su ++ apply_binarize si). split.
  - unfold getitem in Hg. destruct (select "num" combined) as [|s [|]]; try done.
    by injection Hg as ->.
  - apply Forall_app. split; apply apply_binarize_01.
Qed.

Section Labels.
Variable parse : string -> option number.
Variable sqrt : Q -> Q.
Context {G : Type} `{RandomState G}.

(** X27: the classifiers are given binary labels.  For two loaded tables
    with at least one row each, whatever the generator is, when lines 26-78
    return, the training and the test labels are integer columns that hold
    only 0 and 1. *)
Theorem prepare_labels_binary (uci_df india_df : DataFrame RawSeries) (g g' : G)
    (p : Prepared) :
  Forall (fun c => (0 < raw_len c.2)%nat) uci_df ->
  Forall (fun c => (0 < raw_len c.2)%nat) india_df ->
  prepare parse sqrt uci_df india_df g = Ok (p, g') ->
  exists ytr yte,
    y_train p = Int64 ytr /\ y_test p = Int64 yte
    /\ Forall (fun z => z = 0 \/ z = 1) (ytr ++ yte).
Proof.
  unfold prepare. intros _ _ Hrun.
  apply run_bind_inv in Hrun as (combined & g1 & Hcombine & Hrun).
  apply lift_inv in Hcombine as [Hcombine ->].
  destruct (combine_labels_binary _ _ _ Hcombine) as (zs & Hsel & Hzs).
  unfold sample_scale_split in Hrun.
  apply run_bind_inv in Hrun as (sampled & g1 & Hsample & Hrun).
  apply run_bind_inv in Hrun as (X & g2 & HX & Hrun).
  apply run_bind_inv in Hrun as (y & g3 & Hy & Hrun).
  apply lift_inv in Hy as [Hy ->]. apply lift_inv in HX as [_ ->].
  unfold sample in Hsample.
  destruct (Qle_bool 0 (1 # 10) && Qle_bool (1 # 10) 1); [|done].
  apply run_bind_inv in Hsample as (locs & g2 & _ & Hsample).
  apply lift_inv in Hsample as [Hsample ->].
  destruct (take_frame _ combined) as [sampled'|] eqn:Htake; [|done].
  injection Hsample as ->.
  pose proof (select_take_frame "num" _ _ _ Htake) as Hsel'. rewrite Hsel in Hsel'.
  unfold getitem in Hy.
  destruct (select "num" sampled) as [|y' [|]]; try done. injection Hy as ->.
  apply Forall2_cons_1 in Hsel' as [Hy _].
  destruct (take_series_binary _ _ _ Hzs Hy) as (ys & -> & Hys).
  destruct (scale_split_Ok sqrt _ _ _ _ _ Hrun)
    as (_ & _ & _ & train & test & _ & _ & _ & Hytr & Hyte).
  destruct (take_series_binary _ _ _ Hys Hytr) as (ytr & Htr & Hytr').
  destruct (take_series_binary _ _ _ Hys Hyte) as (yte & Hte & Hyte').
  exists ytr, yte. split; [done|]. split; [done|]. by apply Forall_app.
Qed.
End Labels.

Lemma prepare_labels_binary_witness :
  exists ytr yte,
    y_train prepared_data = Int64 ytr /\ y_test prepared_data = Int64 yte
    /\ Forall (fun z => z = 0 \/ z = 1) (ytr ++ yte).
Proof.
  apply (@prepare_labels_binary parse_decimal (fun x => x) nat rotating_generator
           uci_eight india_seven 0%nat 0%nat prepared_data).
  - repeat constructor.
  - repeat constructor.
  - vm_compute. reflexivity.
Defined.

(** * Concatenation without a schema check (line 64) *)








